(** * WishesService (src/wishes/wishes.service.ts) over a model of its store

    The service is a thin layer over a TypeORM repository of wishes.  The
    development has three parts:

    - the entities ([User], [Offer], [Wish]) and the two DTOs;
    - [TypeORM]: the persistence primitives the service calls
      ([Repository.findOne], [find], [save], [update], [delete], and the
      [QueryRunner] transaction calls), as functions on an explicit [World];
    - [WishesService]: the methods of the service, transcribed statement by
      statement, and the properties of them.

    Numbers (ids, amounts, counters, timestamps) are integers [Z]. *)

From stdpp Require Import gmap strings list sorting.
From Stdlib Require Import ZArith.

Local Open Scope Z_scope.

(** ** Entities *)

Module User.
Record t := mk { id : Z; username : string }.
End User.

Module Offer.
Record t := mk { id : Z; amount : Z; user : User.t }.
End Offer.

(** Modelled from the spec: the entity file (entities/wish.entity.ts) and the
    DTO files are not part of the sources at hand.  The descriptive fields are
    the ones the spec lists for the creation payload (title, description, link,
    image, price); they are exactly what the rest pattern [...wishData] of
    [copy] keeps, so they are grouped in one record. *)
Record WishData := mkData {
  title : string;
  description : string;
  link : string;
  image : string;
  price : Z;
}.

Definition CreateWishDto := WishData.

(** [UpdateWishDto]: every field of the creation payload, optional
    ([None] is JavaScript's [undefined]). *)
Record UpdateWishDto := mkPatch {
  title' : option string;
  description' : option string;
  link' : option string;
  image' : option string;
  price' : option Z;
}.

Module Wish.
(** A wish as the service holds it in memory.  [owner] and [offers] are
    relations: they are present only when the query asked for them (or, for
    the object handed to [save], when the caller put them there). *)
Record t := mk {
  id : Z;
  createdAt : Z;
  updatedAt : Z;
  data : WishData;
  raised : Z;
  copied : Z;
  owner : option User.t;
  offers : option (list Offer.t);
}.
End Wish.

(** ** The persistence layer *)

Module TypeORM.

(** A row of the wishes table; its primary key is the key of the table. *)
Record Row := mkRow {
  createdAt : Z;
  updatedAt : Z;
  data : WishData;
  raised : Z;
  copied : Z;
  owner : User.t;
  offers : list Offer.t;
}.

Abbreviation Table := (gmap Z Row).

(** What can happen at a store access of the service: nothing, a statement
    of another request committed just before it, or a failure of the store.
    A [Session] event is addressed to the query runner: it says whether the
    next call by which the runner opens its own connection or its
    transaction gets through. *)
Inductive Event :=
| Quiet
| Interleaved (f : Table → Table)
| Broken
| Session (ok : bool).

(** The connection a statement travels on: one of the pool, where every
    statement commits on its own, or the connection of the query runner. *)
Inductive Connection := Pool | Runner.

(** A query runner: its flags and, while its transaction is open, the
    before-images of the rows written through it (newest first). *)
Record QueryRunner := mkRunner {
  isTransactionActive : bool;
  isReleased : bool;
  journal : list (Z * option Row);
}.

Record World := mkWorld {
  table : Table;
  sequence : Z;          (* next value of the id sequence *)
  clock : Z;             (* the store's CURRENT_TIMESTAMP *)
  queryRunner : QueryRunner;
  schedule : list Event; (* what happens at the coming store accesses *)
}.

(** The two exceptions of the service, the [TypeError] of the language, and
    [QueryFailedError] for whatever the store or its driver throws. *)
Inductive Exception :=
| NotFoundException (message : string)
| BadRequestException (message : string)
| TypeError
| QueryFailedError.

Inductive Outcome (A : Type) :=
| Resolved (a : A)
| Rejected (e : Exception).
Arguments Resolved {A} a.
Arguments Rejected {A} e.


(** An [async] function: from a world to an outcome and the world after. *)
Definition Async (A : Type) : Type := World → Outcome A * World.

Definition resolve {A} (a : A) : Async A := λ w, (Resolved a, w).

Definition bind {A B} (m : Async A) (f : A → Async B) : Async B := λ w,
  match m w with
  | (Resolved a, w') => f a w'
  | (Rejected e, w') => (Rejected e, w')
  end.

Notation "'await' x ← m ; k" := (bind m (λ x, k))
  (at level 10, x name, m at level 100, k at level 200,
   format "'[v' 'await'  x  ←  m ; '/' k ']'").

Definition throw {A} (e : Exception) : Async A := λ w, (Rejected e, w).

(** [try { body } catch (err) { handler err } finally { finalizer }] *)
Definition try_catch_finally {A} (body : Async A)
    (handler : Exception → Async A) (finalizer : Async unit) : Async A :=
  λ w,
    let '(r, w1) :=
      match body w with
      | (Resolved a, w') => (Resolved a, w')
      | (Rejected e, w') => handler e w'
      end in
    match finalizer w1 with
    | (Resolved _, w2) => (r, w2)
    | (Rejected e, w2) => (Rejected e, w2)
    end.

Definition with_table (f : Table → Table) (w : World) : World :=
  mkWorld (f (table w)) (sequence w) (clock w) (queryRunner w) (schedule w).

Definition with_runner (f : QueryRunner → QueryRunner) (w : World) : World :=
  mkWorld (table w) (sequence w) (clock w) (f (queryRunner w)) (schedule w).

(** One store access: time passes and the next event of the schedule
    happens (an exhausted schedule is quiet). *)
Definition tick (w : World) : World :=
  mkWorld (table w) (sequence w) (clock w + 1) (queryRunner w)
          (tail (schedule w)).

Definition access : Async unit := λ w,
  let w' := tick w in
  match schedule w with
  | [] | Quiet :: _ | Session _ :: _ => (Resolved tt, w')
  | Interleaved f :: _ => (Resolved tt, with_table f w')
  | Broken :: _ => (Rejected QueryFailedError, w')
  end.

(** A call by which the query runner opens its connection or its
    transaction: it takes the next event when that is a [Session] event, and
    fails when the event says so; with any other event next, or none, it
    gets through and the event stays for the store access it belongs to. *)
Definition session : Async unit := λ w,
  match schedule w with
  | Session ok :: rest =>
      (if ok then Resolved tt else Rejected QueryFailedError,
       mkWorld (table w) (sequence w) (clock w) (queryRunner w) rest)
  | _ => (Resolved tt, w)
  end.

(** A write of row [k] (to [Some] row, or its deletion) over a connection.
    Over the runner's connection inside its transaction the before-image is
    journalled; over a pooled connection the write is committed at once. *)
Definition write (via : Connection) (k : Z) (new : option Row) : Async unit :=
  λ w,
    let old := table w !! k in
    let w1 := with_table (λ t, match new with
                               | Some r => <[k:=r]> t
                               | None => delete k t
                               end) w in
    match via with
    | Pool => (Resolved tt, w1)
    | Runner =>
        if isTransactionActive (queryRunner w)
        then (Resolved tt,
              with_runner (λ q, mkRunner true (isReleased q)
                                         ((k, old) :: journal q)) w1)
        else (Resolved tt, w1)
    end.

Module QueryRunner.
Definition create : Async unit := λ w,
  (Resolved tt, with_runner (λ _, mkRunner false false []) w).

Definition connect : Async unit := session.

Definition startTransaction : Async unit :=
  await _ ← session; λ w,
    (Resolved tt, with_runner (λ q, mkRunner true (isReleased q) []) w).

Definition commitTransaction : Async unit := λ w,
  (Resolved tt, with_runner (λ q, mkRunner false (isReleased q) []) w).

Definition undo (t : Table) (j : list (Z * option Row)) : Table :=
  foldl (λ t e, match e.2 with
                | Some r => <[e.1:=r]> t
                | None => delete e.1 t
                end) t j.

Definition rollbackTransaction : Async unit := λ w,
  (Resolved tt,
   with_runner (λ q, mkRunner false (isReleased q) [])
               (with_table (λ t, undo t (journal (queryRunner w))) w)).

Definition release : Async unit := λ w,
  (Resolved tt,
   with_runner (λ q, mkRunner (isTransactionActive q) true (journal q)) w).
End QueryRunner.

(** Which relations a query loads.  The service asks either for none, for
    ['owner'], or for ['owner', 'offers', 'offers.user']. *)
Record Relations := mkRel { withOwner : bool; withOffers : bool }.

Definition load (rel : Relations) (k : Z) (r : Row) : Wish.t :=
  Wish.mk k (createdAt r) (updatedAt r) (data r) (raised r) (copied r)
          (if withOwner rel then Some (owner r) else None)
          (if withOffers rel then Some (offers r) else None).

(** The values an [update] sets: a patch of the descriptive fields and,
    for the service's own writes, [raised] or [copied]. *)
Record Partial := mkPartial {
  patch : UpdateWishDto;
  raised' : option Z;
  copied' : option Z;
}.

Definition noPatch : UpdateWishDto := mkPatch None None None None None.

Definition applyPatch (p : UpdateWishDto) (d : WishData) : WishData :=
  mkData (default (title d) (title' p))
         (default (description d) (description' p))
         (default (link d) (link' p))
         (default (image d) (image' p))
         (default (price d) (price' p)).

(** The row after an [UPDATE]: the given columns, and the update timestamp. *)
Definition applyPartial (p : Partial) (now : Z) (r : Row) : Row :=
  mkRow (createdAt r) now (applyPatch (patch p) (data r))
        (default (raised r) (raised' p))
        (default (copied r) (copied' p))
        (owner r) (offers r).

Inductive Order := createdAt_DESC | copied_DESC.

Definition sortKey (o : Order) (kr : Z * Row) : Z :=
  match o with
  | createdAt_DESC => createdAt kr.2
  | copied_DESC => copied kr.2
  end.

Definition desc (o : Order) : relation (Z * Row) :=
  λ a b, sortKey o b ≤ sortKey o a.

#[global] Instance desc_dec o a b : Decision (desc o a b).
Proof. unfold desc. apply _. Defined.

Record FindManyOptions := mkFind {
  where_id_In : option (list Z);
  order : option Order;
  take : option nat;
  relations : Relations;
}.

Definition select (o : FindManyOptions) (t : Table) : list (Z * Row) :=
  let rows := map_to_list t in
  let rows := match where_id_In o with
              | Some ids => filter (λ kr, kr.1 ∈ ids) rows
              | None => rows
              end in
  let rows := match order o with
              | Some ord => merge_sort (desc ord) rows
              | None => rows
              end in
  match take o with
  | Some (S n) => firstn (S n) rows
  | Some O | None => rows (* a [take] of 0 sets no limit *)
  end.

Module Repository.
Definition findOne (via : Connection) (id : Z) (rel : Relations)
  : Async (option Wish.t) :=
  await _ ← access; λ w, (Resolved (load rel id <$> table w !! id), w).

Definition findOneBy (via : Connection) (id : Z) : Async (option Wish.t) :=
  findOne via id (mkRel false false).

Definition find (via : Connection) (o : FindManyOptions)
  : Async (list Wish.t) :=
  await _ ← access; λ w,
    (Resolved ((λ kr, load (relations o) kr.1 kr.2) <$> select o (table w)), w).

(** [save] of an object without id: an INSERT.  The store assigns the id
    and the timestamps, and [raised] and [copied] take their column
    default, zero; the object comes back with these merged in.  The value
    of the id sequence is used up also when the id turns out to be taken. *)
Definition save (via : Connection) (dto : WishData) (owner : User.t)
  : Async Wish.t :=
  await _ ← access; λ w,
    let id := sequence w in
    match table w !! id with
    | Some _ =>
        (Rejected QueryFailedError,
         mkWorld (table w) (id + 1) (clock w) (queryRunner w) (schedule w))
    | None =>
        let r := mkRow (clock w) (clock w) dto 0 0 owner [] in
        let w' := mkWorld (table w) (id + 1) (clock w) (queryRunner w)
                          (schedule w) in
        match write via id (Some r) w' with
        | (Resolved _, w'') =>
            (Resolved (Wish.mk id (clock w) (clock w) dto 0 0 (Some owner) None), w'')
        | (Rejected e, w'') => (Rejected e, w'')
        end
    end.

Definition update (via : Connection) (id : Z) (p : Partial) : Async unit :=
  await _ ← access; λ w,
    match table w !! id with
    | Some r => write via id (Some (applyPartial p (clock w) r)) w
    | None => (Resolved tt, w)
    end.

Definition delete (via : Connection) (id : Z) : Async unit :=
  await _ ← access; λ w,
    match table w !! id with
    | Some _ => write via id None w
    | None => (Resolved tt, w)
    end.
End Repository.

(** A world is calm when no statement of another request is scheduled:
    its store accesses can still fail. *)
Definition interferes (e : Event) : bool :=
  match e with
  | Interleaved _ => true
  | Quiet | Broken | Session _ => false
  end.

Definition calm (w : World) : Prop :=
  forallb (λ e, negb (interferes e)) (schedule w) = true.

(** The result of a call that was refused by the store before it did
    anything: the store's error, the table and the query runner as in [w]. *)
Definition refused {A} (w : World) (res : Outcome A * World) : Prop :=
  res.1 = Rejected QueryFailedError
  ∧ table res.2 = table w
  ∧ queryRunner res.2 = queryRunner w.

End TypeORM.

(** ** The service *)

Module WishesService.
Import TypeORM.

(** Modelled from the spec: wishes.constants.ts is not part of the sources
    at hand.  It holds the three named error messages and the two caps;
    both are taken as parameters of the service. *)
Record WishErrorsT := mkErrors {
  NotFound : string;
  NotOwner : string;
  CannotChangePrice : string;
}.

Record WishesLimitsT := mkLimits {
  latest : nat;
  mostCopied : nat;
}.

(** [@InjectRepository(Wish)] hands the service the repository of the data
    source's default manager.  Each of its statements takes a connection of
    the pool; none of them is sent over the connection of a query runner
    that [dataSource.createQueryRunner()] makes later (those are the
    statements of [queryRunner.manager], which the service never uses). *)
Definition wishRepository : Connection := Pool.

Definition rel_owner : Relations := mkRel true false.
Definition rel_owner_offers : Relations := mkRel true true.
Definition rel_none : Relations := mkRel false false.

Section Service.
(** Modelled from the spec: [Wish.toJSON] belongs to the entity file, which
    is not part of the sources at hand; the JSON-safe projection and its
    type are parameters. *)
Context {J : Type}.
Variable toJSON : Wish.t → J.
Variable WishErrors : WishErrorsT.
Variable WishesLimits : WishesLimitsT.

Definition create (createWishDto : CreateWishDto) (user : User.t)
  : Async Wish.t :=
  Repository.save wishRepository createWishDto user.

Definition findById (id : Z) : Async J :=
  await wish ← Repository.findOne wishRepository id rel_owner_offers;
  match wish with
  | None => throw (NotFoundException (NotFound WishErrors))
  | Some wish => resolve (toJSON wish)
  end.

Definition findLatestWishes : Async (list J) :=
  await wishes ← Repository.find wishRepository
    (mkFind None (Some createdAt_DESC) (Some (latest WishesLimits))
            rel_owner_offers);
  resolve (toJSON <$> wishes).

Definition findTopWishes : Async (list J) :=
  await wishes ← Repository.find wishRepository
    (mkFind None (Some copied_DESC) (Some (mostCopied WishesLimits))
            rel_owner_offers);
  resolve (toJSON <$> wishes).

(** [wish.owner.id !== userId]; reading [id] of an owner that was not
    loaded would be a [TypeError]. *)
Definition check_owner (wish : Wish.t) (userId : Z) : Async unit :=
  match Wish.owner wish with
  | None => throw TypeError
  | Some owner =>
      if bool_decide (User.id owner ≠ userId)
      then throw (BadRequestException (NotOwner WishErrors))
      else resolve tt
  end.

Definition isPriceChanged (updateWishDto : UpdateWishDto) (wish : Wish.t)
  : bool :=
  match price' updateWishDto with
  | None => false
  | Some p => bool_decide (p ≠ price (Wish.data wish))
  end.

Definition hasContributions (wish : Wish.t) : bool :=
  bool_decide (0 < Wish.raised wish).

Definition update (wishId : Z) (updateWishDto : UpdateWishDto) (userId : Z)
  : Async J :=
  await wish ← Repository.findOne wishRepository wishId rel_owner;
  match wish with
  | None => throw (NotFoundException (NotFound WishErrors))
  | Some wish =>
      await _ ← check_owner wish userId;
      if isPriceChanged updateWishDto wish && hasContributions wish
      then throw (BadRequestException (CannotChangePrice WishErrors))
      else
        await _ ← Repository.update wishRepository wishId
                    (mkPartial updateWishDto None None);
        await updatedWish ← Repository.findOneBy wishRepository wishId;
        match updatedWish with
        | None => throw (NotFoundException (NotFound WishErrors))
        | Some updatedWish => resolve (toJSON updatedWish)
        end
  end.

Definition remove (wishId : Z) (userId : Z) : Async J :=
  await wish ← Repository.findOne wishRepository wishId rel_owner;
  match wish with
  | None => throw (NotFoundException (NotFound WishErrors))
  | Some wish =>
      await _ ← check_owner wish userId;
      await _ ← Repository.delete wishRepository wishId;
      resolve (toJSON wish)
  end.

Definition copy (wishId : Z) (user : User.t) : Async J :=
  await originalWish ← Repository.findOne wishRepository wishId rel_owner;
  match originalWish with
  | None => throw (NotFoundException (NotFound WishErrors))
  | Some _ =>
      await _ ← QueryRunner.create;
      await _ ← QueryRunner.connect;
      await _ ← QueryRunner.startTransaction;
      try_catch_finally
        (await found ← Repository.findOneBy wishRepository wishId;
         match found with
         | None => throw TypeError (* destructuring of null *)
         | Some found =>
             let copied := Wish.copied found in
             let wishData := Wish.data found in
             await _ ← Repository.update wishRepository wishId
                         (mkPartial noPatch None (Some (copied + 1)));
             await newWish ← create wishData user;
             await savedWish ← Repository.findOne wishRepository
                                 (Wish.id newWish) rel_owner_offers;
             match savedWish with
             | None => throw (NotFoundException (NotFound WishErrors))
             | Some savedWish =>
                 await _ ← QueryRunner.commitTransaction;
                 resolve (toJSON savedWish)
             end
         end)
        (λ err, await _ ← QueryRunner.rollbackTransaction; throw err)
        QueryRunner.release
  end.

Definition getManyByIds (wishIds : list Z) : Async (list J) :=
  match wishIds with
  | [] => resolve []
  | _ :: _ =>
      await wishes ← Repository.find wishRepository
        (mkFind (Some wishIds) None None rel_none);
      resolve (toJSON <$> wishes)
  end.

Definition updateRaised (id : Z) (raisedAmount : Z) : Async J :=
  await _ ← Repository.update wishRepository id
              (mkPartial noPatch (Some raisedAmount) None);
  await updatedWish ← Repository.findOneBy wishRepository id;
  match updatedWish with
  | None => throw (NotFoundException (NotFound WishErrors))
  | Some updatedWish => resolve (toJSON updatedWish)
  end.

(** *** Vocabulary of the properties *)

(** The two rejections of [update] and [remove] that come before any write. *)
Definition notOwner : Exception := BadRequestException (NotOwner WishErrors).
Definition priceLocked : Exception :=
  BadRequestException (CannotChangePrice WishErrors).

(** The row [update] leaves behind when called at time [now]: the patch
    applied, stamped at the second store access. *)
Definition patched (now : Z) (patch : UpdateWishDto) (W : Row) : Row :=
  applyPartial (mkPartial patch None None) (now + 2) W.

(** For a [copy] called at time [now]: the source row after the counter
    update (the third store access), and the row that is inserted (at the
    fourth). *)
Definition counted (now : Z) (W : Row) : Row :=
  mkRow (createdAt W) (now + 3) (data W) (raised W) (copied W + 1)
        (owner W) (offers W).

Definition duplicate (now : Z) (W : Row) (user : User.t) : Row :=
  mkRow (now + 4) (now + 4) (data W) 0 0 user [].

Definition closed : QueryRunner := mkRunner false true [].

(** The column an order sorts by, read off a loaded wish. *)
Definition orderKey (o : Order) (x : Wish.t) : Z :=
  match o with
  | createdAt_DESC => Wish.createdAt x
  | copied_DESC => Wish.copied x
  end.

(** What a listing of a quiet world is: the projections of [ws], which
    are stored wishes loaded with owner and offers, at most [cap] of them
    and as many as the table allows, highest key first, and no stored wish
    left out has a higher key than one that is listed.  The result is a
    list: for an empty table, the empty one. *)
Definition listing (o : Order) (cap : nat) (w : World)
    (res : Outcome (list J) * World) : Prop :=
  ∃ ws w',
    res = (Resolved (toJSON <$> ws), w')
    ∧ table w' = table w
    ∧ (length (toJSON <$> ws) ≤ cap)%nat
    ∧ length ws = (cap `min` size (table w))%nat
    ∧ StronglySorted (λ a b, orderKey o b ≤ orderKey o a) ws
    ∧ (∀ x, x ∈ ws →
         ∃ r, table w !! Wish.id x = Some r
            ∧ x = load rel_owner_offers (Wish.id x) r)
    ∧ (∀ k r x, table w !! k = Some r →
         load rel_owner_offers k r ∉ ws → x ∈ ws →
         orderKey o (load rel_owner_offers k r) ≤ orderKey o x)
    ∧ (table w = ∅ → toJSON <$> ws = []).

Definition notFound : Exception := NotFoundException (NotFound WishErrors).

(** [W'] is [W] after an UPDATE with the fields of [patch]: a descriptive
    field is the one of the patch when the patch has it and the stored one
    otherwise, and nothing else but the update timestamp may differ. *)
Definition touched_by (patch : UpdateWishDto) (W W' : Row) : Prop :=
  title (data W') = default (title (data W)) (title' patch)
  ∧ description (data W') = default (description (data W)) (description' patch)
  ∧ link (data W') = default (link (data W)) (link' patch)
  ∧ image (data W') = default (image (data W)) (image' patch)
  ∧ price (data W') = default (price (data W)) (price' patch)
  ∧ createdAt W' = createdAt W
  ∧ raised W' = raised W
  ∧ copied W' = copied W
  ∧ owner W' = owner W
  ∧ offers W' = offers W.

(** The three calls of [copy] between its first load and its [try] block:
    a query runner is made, connected, and its transaction started. *)
Definition openTransaction : Async unit :=
  await _ ← QueryRunner.create;
  await _ ← QueryRunner.connect;
  QueryRunner.startTransaction.

(** The stored wishes, each loaded with owner and offers. *)
Definition allWishes (t : Table) : list Wish.t :=
  (λ kr, load rel_owner_offers kr.1 kr.2) <$> map_to_list t.

End Service.
End WishesService.


(** ** Concrete data for the examples *)

Module Fixtures.
Import TypeORM WishesService.

Definition alice : User.t := User.mk 1 "alice".
Definition bob : User.t := User.mk 2 "bob".

Definition bike : WishData :=
  mkData "bike" "a red bike" "https://shop/bike" "https://img/bike" 100.

(** Two wishes of alice: the first without contributions, the second with. *)
Definition row1 : Row := mkRow 5 5 bike 0 0 alice [].
Definition row2 : Row := mkRow 7 8 bike 20 3 alice [Offer.mk 1 20 bob].

Definition store : Table := <[2:=row2]> {[1:=row1]}.

Definition world (events : list Event) : World :=
  mkWorld store 3 10 (mkRunner false false []) events.

Definition messages : WishErrorsT :=
  mkErrors "wish not found" "not the owner of the wish"
           "the price cannot be changed once money was raised".

Definition limits : WishesLimitsT := mkLimits 40 20.

(** Caps below the size of the store, caps of zero, and messages that do
    not tell the two client errors apart. *)
Definition tight : WishesLimitsT := mkLimits 1 1.
Definition unlimited : WishesLimitsT := mkLimits 0 0.


Definition rename (t : string) : UpdateWishDto :=
  mkPatch (Some t) None None None None.

Definition reprice (t : string) (p : Z) : UpdateWishDto :=
  mkPatch (Some t) None None None (Some p).

(** A query runner that was not used yet. *)
Definition idle : QueryRunner := mkRunner false false [].

(** Statements of another request on wish 1: six more copies counted, or
    twenty raised. *)
Definition row1_copied : Row := mkRow 5 11 bike 0 6 alice [].
Definition row1_funded : Row := mkRow 5 11 bike 20 0 alice [Offer.mk 1 20 bob].

Definition count_copies (t : Table) : Table := <[1 := row1_copied]> t.
Definition fund (t : Table) : Table := <[1 := row1_funded]> t.

(** An empty store, and the world a call leaves behind. *)
Definition empty : World := mkWorld ∅ 1 0 (mkRunner false false []) [].

Definition after {A} (m : Async A) (w : World) : World := (m w).2.
End Fixtures.

(** ** Properties *)

Import TypeORM WishesService.

Ltac enter w :=
  destruct w as [t s c q sch]; simpl in *; subst.

Ltac exec :=
  unfold update, remove, copy, create, findById, getManyByIds, updateRaised,
    findLatestWishes, findTopWishes, check_owner,
    Repository.findOneBy, Repository.findOne, Repository.find,
    Repository.save, Repository.update, Repository.delete,
    QueryRunner.create, QueryRunner.connect, QueryRunner.startTransaction,
    QueryRunner.commitTransaction, QueryRunner.rollbackTransaction,
    QueryRunner.release, try_catch_finally, wishRepository,
    bind, resolve, throw, access, session, tick, write, with_table,
    with_runner;
  simpl.

Ltac holds :=
  first [reflexivity | simpl; lia | discriminate | compute_done].

Ltac settle :=
  do 2 eexists; split; [reflexivity|]; simpl;
  repeat split; intros; simplify_eq; auto 10.

Section Store.

Lemma applyPatch_noPatch (d : WishData) : applyPatch noPatch d = d.
Proof. by destruct d. Qed.

Lemma applyPartial_copied (n now : Z) (r : Row) :
  applyPartial (mkPartial noPatch None (Some n)) now r
  = mkRow (createdAt r) now (data r) (raised r) n (owner r) (offers r).
Proof. unfold applyPartial. simpl. by rewrite applyPatch_noPatch. Qed.

Lemma applyPartial_raised (n now : Z) (r : Row) :
  applyPartial (mkPartial noPatch (Some n) None) now r
  = mkRow (createdAt r) now (data r) n (copied r) (owner r) (offers r).
Proof. unfold applyPartial. simpl. by rewrite applyPatch_noPatch. Qed.

(** A write made through the query runner inside its transaction is undone
    by the rollback ... *)
Lemma rollback_undoes_runner_write (w : World) (id : Z) (p : Partial) :
  schedule w = [] →
  ∀ w1 w2 w3,
    QueryRunner.startTransaction w = (Resolved tt, w1) →
    Repository.update Runner id p w1 = (Resolved tt, w2) →
    QueryRunner.rollbackTransaction w2 = (Resolved tt, w3) →
    table w3 = table w.
Proof.
  intros Hq w1 w2 w3. enter w. exec.
  intros [= <-]. simpl.
  destruct (t !! id) as [r|] eqn:Hr; simpl; intros [= <-] [= <-]; simpl.
  - rewrite insert_insert_eq. by apply insert_id.
  - done.
Qed.

(** ... while one made through a pooled connection is not. *)
Lemma rollback_keeps_pool_write (w : World) (id : Z) (p : Partial) (r : Row) :
  schedule w = [] → table w !! id = Some r →
  ∀ w1 w2 w3,
    QueryRunner.startTransaction w = (Resolved tt, w1) →
    Repository.update Pool id p w1 = (Resolved tt, w2) →
    QueryRunner.rollbackTransaction w2 = (Resolved tt, w3) →
    table w3 = <[id := applyPartial p (clock w + 1) r]> (table w).
Proof.
  intros Hq Hr w1 w2 w3. enter w. exec.
  intros [= <-]. simpl. rewrite Hr. by intros [= <-] [= <-].
Qed.

End Store.

Section Update.
Context {J : Type}.
Variable toJSON : Wish.t → J.
Variable WishErrors : WishErrorsT.

(** When the guards pass, [update] writes the patched row and returns the
    projection of its re-read (without relations). *)
Lemma update_applies (w : World) wishId (W : Row) patch userId :
  schedule w = [] →
  table w !! wishId = Some W →
  User.id (owner W) = userId →
  isPriceChanged patch (load rel_owner wishId W)
    && hasContributions (load rel_owner wishId W) = false →
  ∃ w', update toJSON WishErrors wishId patch userId w
        = (Resolved (toJSON (load rel_none wishId (patched (clock w) patch W))), w')
      ∧ table w' = <[wishId := patched (clock w) patch W]> (table w).
Proof.
  intros Hq HW Ho Hg. enter w. exec. rewrite HW. simpl.
  rewrite bool_decide_eq_false_2 by (intros H; by apply H). simpl.
  rewrite Hg. simpl. rewrite HW. simpl. rewrite lookup_insert_eq. simpl.
  unfold patched. simpl. replace (c + 1 + 1) with (c + 2) by lia. eauto.
Qed.

Lemma update_locked (w : World) wishId (W : Row) patch userId :
  schedule w = [] →
  table w !! wishId = Some W →
  User.id (owner W) = userId →
  isPriceChanged patch (load rel_owner wishId W)
    && hasContributions (load rel_owner wishId W) = true →
  ∃ w', update toJSON WishErrors wishId patch userId w
        = (Rejected (priceLocked WishErrors), w')
      ∧ table w' = table w.
Proof.
  intros Hq HW Ho Hg. enter w. exec. rewrite HW. simpl.
  rewrite bool_decide_eq_false_2 by (intros H; by apply H). simpl.
  rewrite Hg. eauto.
Qed.

Lemma update_not_owner (w : World) wishId (W : Row) patch userId :
  schedule w = [] →
  table w !! wishId = Some W →
  userId ≠ User.id (owner W) →
  ∃ w', update toJSON WishErrors wishId patch userId w
        = (Rejected (notOwner WishErrors), w')
      ∧ table w' = table w.
Proof.
  intros Hq HW Hne. enter w. exec. rewrite HW. simpl.
  rewrite bool_decide_eq_true_2 by done. simpl. eauto.
Qed.

Lemma remove_not_owner (w : World) wishId (W : Row) userId :
  schedule w = [] →
  table w !! wishId = Some W →
  userId ≠ User.id (owner W) →
  ∃ w', remove toJSON WishErrors wishId userId w
        = (Rejected (notOwner WishErrors), w')
      ∧ table w' = table w.
Proof.
  intros Hq HW Hne. enter w. exec. rewrite HW. simpl.
  rewrite bool_decide_eq_true_2 by done. simpl. eauto.
Qed.

(** C4: for an existing wish and a requesting user who is not its owner,
    [update] and [remove] both fail with the NotOwner error and leave the
    table of wishes as it was: no field of the record is changed and the
    record is not deleted. *)
Theorem non_owner_rejected (w : World) wishId (W : Row) patch userId :
  schedule w = [] →
  table w !! wishId = Some W →
  userId ≠ User.id (owner W) →
  (∃ w', update toJSON WishErrors wishId patch userId w
         = (Rejected (notOwner WishErrors), w')
       ∧ table w' = table w ∧ table w' !! wishId = Some W)
  ∧ (∃ w', remove toJSON WishErrors wishId userId w
         = (Rejected (notOwner WishErrors), w')
       ∧ table w' = table w ∧ table w' !! wishId = Some W).
Proof.
  intros Hq HW Hne. split.
  - destruct (update_not_owner w wishId W patch userId) as (w' & Hu & Ht);
      try done.
    exists w'. by rewrite Ht.
  - destruct (remove_not_owner w wishId W userId) as (w' & Hu & Ht);
      try done.
    exists w'. by rewrite Ht.
Qed.

(** C3 (amended): for a wish owned by the requesting user and a patch that
    carries a price, [update] succeeds when nothing was raised, and stores
    the new price; it fails with the price-locked error when something was
    raised and the price of the patch differs from the stored one, and then
    the table of wishes, so the stored price and the rest of the record, is
    as before. *)
Theorem update_price_rule (w : World) wishId (W : Row) patch p userId :
  schedule w = [] →
  table w !! wishId = Some W →
  User.id (owner W) = userId →
  price' patch = Some p →
  (raised W = 0 →
     ∃ w', update toJSON WishErrors wishId patch userId w
           = (Resolved (toJSON (load rel_none wishId (patched (clock w) patch W))), w')
         ∧ table w' = <[wishId := patched (clock w) patch W]> (table w)
         ∧ price (data (patched (clock w) patch W)) = p)
  ∧ (0 < raised W → p ≠ price (data W) →
     ∃ w', update toJSON WishErrors wishId patch userId w
           = (Rejected (priceLocked WishErrors), w')
         ∧ table w' = table w ∧ table w' !! wishId = Some W).
Proof.
  intros Hq HW Ho Hp. split.
  - intros Hr.
    destruct (update_applies w wishId W patch userId) as (w' & Hu & Ht); try done.
    { unfold hasContributions. simpl. rewrite Hr.
      rewrite (bool_decide_eq_false_2 (0 < 0)) by lia. apply andb_false_r. }
    exists w'. repeat split; try done.
    unfold patched. simpl. by rewrite Hp.
  - intros Hr Hne.
    destruct (update_locked w wishId W patch userId) as (w' & Hu & Ht); try done.
    { unfold isPriceChanged, hasContributions. simpl. rewrite Hp.
      by rewrite !bool_decide_eq_true_2. }
    exists w'. repeat split; try done. by rewrite Ht.
Qed.

(** C9: for a wish owned by the requesting user on which something was
    raised, a patch whose price equals the stored price is not rejected by
    the price lock: the update succeeds and the other fields of the patch
    are applied (each of title, description, link and image is the one of
    the patch when the patch has it, and the stored one otherwise), the
    price staying what it was. *)
Theorem update_same_price_allowed (w : World) wishId (W : Row) patch userId :
  schedule w = [] →
  table w !! wishId = Some W →
  User.id (owner W) = userId →
  0 < raised W →
  price' patch = Some (price (data W)) →
  ∃ w', update toJSON WishErrors wishId patch userId w
        = (Resolved (toJSON (load rel_none wishId (patched (clock w) patch W))), w')
      ∧ table w' = <[wishId := patched (clock w) patch W]> (table w)
      ∧ touched_by patch W (patched (clock w) patch W)
      ∧ price (data (patched (clock w) patch W)) = price (data W)
      ∧ raised (patched (clock w) patch W) = raised W
      ∧ copied (patched (clock w) patch W) = copied W.
Proof.
  intros Hq HW Ho Hr Hp.
  destruct (update_applies w wishId W patch userId) as (w' & Hu & Ht); try done.
  { unfold isPriceChanged. simpl. rewrite Hp.
    by rewrite bool_decide_eq_false_2 by (intros H; by apply H). }
  exists w'. repeat split; try done.
  unfold patched. simpl. by rewrite Hp.
Qed.


(** The remaining paths of [remove], [findById] and [updateRaised]. *)

Lemma remove_by_owner (w : World) wishId (W : Row) :
  schedule w = [] →
  table w !! wishId = Some W →
  ∃ w', remove toJSON WishErrors wishId (User.id (owner W)) w
        = (Resolved (toJSON (load rel_owner wishId W)), w')
      ∧ table w' = delete wishId (table w).
Proof.
  intros Hq HW. enter w. exec. rewrite HW. simpl.
  rewrite bool_decide_eq_false_2 by (intros H; by apply H). simpl.
  rewrite HW. simpl. eauto.
Qed.

Lemma findById_lookup (w : World) id :
  schedule w = [] →
  ∃ w', findById toJSON WishErrors id w
        = (match table w !! id with
           | Some W => Resolved (toJSON (load rel_owner_offers id W))
           | None => Rejected (NotFoundException (NotFound WishErrors))
           end, w')
      ∧ table w' = table w.
Proof.
  intros Hq. enter w. exec. destruct (t !! id); simpl; eauto.
Qed.

Lemma updateRaised_sets (w : World) id (W : Row) raisedAmount :
  schedule w = [] →
  table w !! id = Some W →
  ∃ W' w', updateRaised toJSON WishErrors id raisedAmount w
           = (Resolved (toJSON (load rel_none id W')), w')
         ∧ table w' = <[id := W']> (table w)
         ∧ W' = mkRow (createdAt W) (clock w + 1) (data W) raisedAmount
                      (copied W) (owner W) (offers W).
Proof.
  intros Hq HW. enter w. exec. rewrite HW. simpl.
  rewrite lookup_insert_eq. simpl. rewrite applyPartial_raised. eauto.
Qed.

Lemma updateRaised_missing (w : World) id raisedAmount :
  schedule w = [] →
  table w !! id = None →
  ∃ w', updateRaised toJSON WishErrors id raisedAmount w
        = (Rejected (NotFoundException (NotFound WishErrors)), w')
      ∧ table w' = table w.
Proof.
  intros Hq HW. enter w. exec. rewrite HW. simpl. rewrite HW. simpl. eauto.
Qed.

End Update.

Section Copy.
Context {J : Type}.
Variable toJSON : Wish.t → J.
Variable WishErrors : WishErrorsT.

Lemma copy_quiet (w : World) wishId (W : Row) user :
  schedule w = [] →
  table w !! wishId = Some W →
  table w !! sequence w = None →
  ∃ w', copy toJSON WishErrors wishId user w
        = (Resolved (toJSON (load rel_owner_offers (sequence w)
                                  (duplicate (clock w) W user))), w')
      ∧ table w' = <[sequence w := duplicate (clock w) W user]>
                     (<[wishId := counted (clock w) W]> (table w))
      ∧ queryRunner w' = closed.
Proof.
  intros Hq HW Hs. enter w.
  assert (wishId ≠ s) as Hne by congruence.
  exec. rewrite HW. simpl. rewrite HW. simpl. rewrite HW. simpl.
  rewrite applyPartial_copied.
  rewrite lookup_insert_ne by done. rewrite Hs. simpl.
  rewrite lookup_insert_eq. simpl.
  unfold duplicate, counted. simpl.
  replace (c + 1 + 1 + 1 + 1) with (c + 4) by lia.
  replace (c + 1 + 1 + 1) with (c + 3) by lia. eauto.
Qed.

Lemma copy_save_fails (w : World) wishId (W : Row) user rest :
  schedule w = Quiet :: Quiet :: Quiet :: Broken :: rest →
  table w !! wishId = Some W →
  ∃ w', copy toJSON WishErrors wishId user w = (Rejected QueryFailedError, w')
      ∧ table w' = <[wishId := counted (clock w) W]> (table w)
      ∧ queryRunner w' = closed.
Proof.
  intros Hq HW. enter w.
  exec. rewrite HW. simpl. rewrite HW. simpl. rewrite HW. simpl.
  rewrite applyPartial_copied.
  unfold counted. simpl.
  replace (c + 1 + 1 + 1) with (c + 3) by lia. eauto.
Qed.

Lemma copy_source_vanished (w : World) wishId (W : Row) user f rest :
  schedule w = Quiet :: Interleaved f :: rest →
  table w !! wishId = Some W →
  f (table w) !! wishId = None →
  ∃ w', copy toJSON WishErrors wishId user w = (Rejected TypeError, w')
      ∧ table w' = f (table w)
      ∧ queryRunner w' = closed.
Proof.
  intros Hq HW Hf. enter w.
  exec. rewrite HW. simpl. rewrite Hf. simpl. eauto.
Qed.

Lemma copy_duplicate_vanished (w : World) wishId (W : Row) user g rest :
  schedule w = Quiet :: Quiet :: Quiet :: Quiet :: Interleaved g :: rest →
  table w !! wishId = Some W →
  table w !! sequence w = None →
  g (<[sequence w := duplicate (clock w) W user]>
       (<[wishId := counted (clock w) W]> (table w))) !! sequence w = None →
  ∃ w', copy toJSON WishErrors wishId user w
        = (Rejected (NotFoundException (NotFound WishErrors)), w')
      ∧ table w' = g (<[sequence w := duplicate (clock w) W user]>
                        (<[wishId := counted (clock w) W]> (table w)))
      ∧ queryRunner w' = closed.
Proof.
  intros Hq HW Hs Hg. enter w.
  assert (wishId ≠ s) as Hne by congruence.
  exec. rewrite HW. simpl. rewrite HW. simpl. rewrite HW. simpl.
  rewrite applyPartial_copied.
  rewrite lookup_insert_ne by done. rewrite Hs. simpl.
  unfold duplicate, counted in Hg. simpl in Hg.
  replace (c + 1 + 1 + 1 + 1) with (c + 4) by lia.
  replace (c + 1 + 1 + 1) with (c + 3) by lia.
  rewrite Hg. simpl. eauto.
Qed.

Lemma counted_differs (t : Table) wishId (W W' : Row) :
  t !! wishId = Some W → copied W' = copied W + 1 → <[wishId := W']> t ≠ t.
Proof.
  intros HW Hc Heq.
  assert (t !! wishId = Some W') as H'
    by (rewrite <- Heq; apply lookup_insert_eq).
  rewrite HW in H'. injection H' as ->. lia.
Qed.

(** C1: a failure inside the transactional block of [copy] does not put the
    store back.  The statements of the block go through [wishRepository],
    on pooled connections, so the transaction of the query runner holds none
    of them and its rollback undoes nothing.  For every wish: when the
    creation of the new record fails, and also when the new record is gone
    at its re-read (NotFound), the error is re-thrown and the runner is
    released, but the source wish keeps the incremented counter while no
    new record is in the table: the table is not the one before the call. *)
Theorem copy_failure_keeps_increment
    (t : Table) (s c : Z) (q : QueryRunner) wishId (W : Row) user :
  t !! wishId = Some W →
  (∀ rest, ∃ w',
     copy toJSON WishErrors wishId user
          (mkWorld t s c q (Quiet :: Quiet :: Quiet :: Broken :: rest))
     = (Rejected QueryFailedError, w')
     ∧ (∃ W', table w' !! wishId = Some W' ∧ copied W' = copied W + 1)
     ∧ (∀ k, k ≠ wishId → table w' !! k = t !! k)
     ∧ table w' ≠ t
     ∧ queryRunner w' = closed)
  ∧ (t !! s = None → ∀ rest, ∃ w',
     copy toJSON WishErrors wishId user
          (mkWorld t s c q
             (Quiet :: Quiet :: Quiet :: Quiet :: Interleaved (delete s)
                    :: rest))
     = (Rejected (NotFoundException (NotFound WishErrors)), w')
     ∧ (∃ W', table w' !! wishId = Some W' ∧ copied W' = copied W + 1)
     ∧ (∀ k, k ≠ wishId → table w' !! k = t !! k)
     ∧ table w' ≠ t
     ∧ queryRunner w' = closed).
Proof.
  intros HW. split.
  - intros rest.
    destruct (copy_save_fails (mkWorld t s c q
                (Quiet :: Quiet :: Quiet :: Broken :: rest)) wishId W user rest)
      as (w' & Hc & Ht & Hr); try done.
    simpl in Ht. exists w'. rewrite Ht. repeat split; try done.
    + exists (counted c W). by rewrite lookup_insert_eq.
    + intros k Hk. by rewrite lookup_insert_ne.
    + by apply (counted_differs t wishId W).
  - intros Hs rest.
    assert (wishId ≠ s) as Hne by congruence.
    destruct (copy_duplicate_vanished (mkWorld t s c q
                (Quiet :: Quiet :: Quiet :: Quiet :: Interleaved (delete s)
                       :: rest)) wishId W user (delete s) rest)
      as (w' & Hc & Ht & Hr); try done.
    { simpl. apply lookup_delete_eq. }
    simpl in Ht. rewrite delete_insert_id in Ht
      by (by rewrite lookup_insert_ne).
    exists w'. rewrite Ht. repeat split; try done.
    + exists (counted c W). by rewrite lookup_insert_eq.
    + intros k Hk. by rewrite lookup_insert_ne.
    + by apply (counted_differs t wishId W).
Qed.

(** C2 (amended): for an existing wish [W] and a user [B], [copy] succeeds
    and returns the projection of a brand-new wish (its id was not in the
    table) owned by [B], with the descriptive fields of [W] and with
    [raised] and [copied] zero; afterwards the stored [W] has its counter
    incremented by one and its update timestamp set by that update (the
    third store access of the call), its other fields are unchanged, and no
    other record was touched. *)
Theorem copy_duplicates_and_counts (w : World) wishId (W : Row) (B : User.t) :
  schedule w = [] →
  table w !! wishId = Some W →
  table w !! sequence w = None →
  ∃ new W' w',
    copy toJSON WishErrors wishId B w = (Resolved (toJSON new), w')
    ∧ table w !! Wish.id new = None
    ∧ Wish.owner new = Some B
    ∧ Wish.data new = data W
    ∧ Wish.raised new = 0 ∧ Wish.copied new = 0
    ∧ load rel_owner_offers (Wish.id new) <$> table w' !! Wish.id new
      = Some new
    ∧ table w' !! wishId = Some W'
    ∧ copied W' = copied W + 1
    ∧ updatedAt W' = clock w + 3
    ∧ createdAt W' = createdAt W ∧ data W' = data W
    ∧ raised W' = raised W ∧ owner W' = owner W ∧ offers W' = offers W
    ∧ (∀ k, k ≠ wishId → k ≠ Wish.id new → table w' !! k = table w !! k).
Proof.
  intros Hq HW Hs.
  destruct (copy_quiet w wishId W B) as (w' & Hc & Ht & _); try done.
  assert (wishId ≠ sequence w) as Hne by congruence.
  exists (load rel_owner_offers (sequence w) (duplicate (clock w) W B)),
         (counted (clock w) W), w'.
  rewrite Ht. simpl. repeat split; try done.
  - by rewrite lookup_insert_eq.
  - rewrite lookup_insert_ne by done. apply lookup_insert_eq.
  - intros k H1 H2. by rewrite !lookup_insert_ne.
Qed.

(** C10: inside the transactional block of [copy] the re-read of the source
    is destructured unguarded: when the source wish is gone by then (deleted
    by another request after the first load) the failure is a [TypeError],
    not the NotFound error.  The re-read that is guarded is the one of the
    new record: when that one is gone, the failure is NotFound. *)
Theorem copy_unguarded_reread
    (t : Table) (s c : Z) (q : QueryRunner) wishId (W : Row) user :
  t !! wishId = Some W →
  (∀ f rest,
     f t !! wishId = None →
     ∃ w', copy toJSON WishErrors wishId user
                (mkWorld t s c q (Quiet :: Interleaved f :: rest))
           = (Rejected TypeError, w')
         ∧ (∀ m, TypeError ≠ NotFoundException m)
         ∧ table w' = f t
         ∧ queryRunner w' = closed)
  ∧ (∀ g rest,
     t !! s = None →
     g (<[s := duplicate c W user]> (<[wishId := counted c W]> t)) !! s
       = None →
     ∃ w', copy toJSON WishErrors wishId user
                (mkWorld t s c q
                   (Quiet :: Quiet :: Quiet :: Quiet :: Interleaved g :: rest))
           = (Rejected (NotFoundException (NotFound WishErrors)), w')
         ∧ queryRunner w' = closed).
Proof.
  intros HW. split.
  - intros f rest Hf.
    destruct (copy_source_vanished
                (mkWorld t s c q (Quiet :: Interleaved f :: rest))
                wishId W user f rest)
      as (w' & Hc & Ht & Hr); try done.
    exists w'. repeat split; done.
  - intros g rest Hs Hg.
    destruct (copy_duplicate_vanished
                (mkWorld t s c q
                   (Quiet :: Quiet :: Quiet :: Quiet :: Interleaved g :: rest))
                wishId W user g rest)
      as (w' & Hc & _ & Hr); try done.
    exists w'. done.
Qed.

(** C6: [create] persists a new record owned by the acting user with
    [raised] and [copied] zero, and returns what [save] returns: the saved
    object itself, with the user as given and without offers.  It is not
    passed through [toJSON], unlike the result of [findById] for the same
    record. *)
Theorem create_returns_saved_object (w : World) (dto : CreateWishDto) user :
  schedule w = [] →
  table w !! sequence w = None →
  ∃ w',
    create dto user w
    = (Resolved (Wish.mk (sequence w) (clock w + 1) (clock w + 1) dto 0 0
                         (Some user) None), w')
    ∧ table w' = <[sequence w := mkRow (clock w + 1) (clock w + 1) dto 0 0
                                       user []]> (table w)
    ∧ schedule w' = []
    ∧ (findById toJSON WishErrors (sequence w) w').1
      = Resolved (toJSON (Wish.mk (sequence w) (clock w + 1) (clock w + 1)
                                  dto 0 0 (Some user) (Some []))).
Proof.
  intros Hq Hs. enter w. exec. rewrite Hs. simpl.
  eexists. repeat split. simpl. by rewrite lookup_insert_eq.
Qed.

End Copy.

Section Listing.
Context {J : Type}.
Variable toJSON : Wish.t → J.
Variable WishesLimits : WishesLimitsT.

#[local] Instance desc_total o : Total (desc o).
Proof. intros a b. unfold desc. lia. Qed.

#[local] Instance desc_trans o : Transitive (desc o).
Proof. intros a b c. unfold desc. lia. Qed.

Lemma orderKey_load o rel (kr : Z * Row) :
  orderKey o (load rel kr.1 kr.2) = sortKey o kr.
Proof. by destruct o. Qed.

Lemma select_limited (t : Table) (o : Order) (n : nat) rel :
  select (mkFind None (Some o) (Some (S n)) rel) t
  = firstn (S n) (merge_sort (desc o) (map_to_list t)).
Proof. reflexivity. Qed.

Lemma find_ordered (w : World) (o : Order) (cap : nat) :
  schedule w = [] →
  (0 < cap)%nat →
  listing toJSON o cap w
    (bind (Repository.find wishRepository
             (mkFind None (Some o) (Some cap) rel_owner_offers))
          (λ wishes, resolve (toJSON <$> wishes)) w).
Proof.
  intros Hq Hcap. enter w. exec.
  destruct cap as [|n]; [lia|]. rewrite select_limited.
  set (cap := S n) in *.
  set (ld := λ kr : Z * Row, load rel_owner_offers kr.1 kr.2).
  set (l := merge_sort (desc o) (map_to_list t)).
  assert (l ≡ₚ map_to_list t) as Hperm by apply merge_sort_Permutation.
  assert (StronglySorted (desc o) l) as Hsort
    by apply (StronglySorted_merge_sort _).
  exists (ld <$> firstn cap l). eexists. split; [done|]. simpl.
  repeat split.
  - rewrite !length_fmap, length_take. lia.
  - by rewrite length_fmap, length_take, Hperm, length_map_to_list.
  - rewrite <- (take_drop cap l) in Hsort.
    apply StronglySorted_app_1_l in Hsort.
    apply (StronglySorted_fmap ld (desc o)); [|exact Hsort].
    intros a b Hab. unfold ld. by rewrite !orderKey_load.
  - intros x Hx. apply list_elem_of_fmap in Hx as ([k r] & -> & Hin).
    apply subseteq_take in Hin. rewrite Hperm in Hin.
    apply elem_of_map_to_list in Hin. exists r. by simpl.
  - intros k r x Hkr Hout Hx.
    apply list_elem_of_fmap in Hx as ([k' r'] & -> & Hin).
    apply elem_of_map_to_list in Hkr. rewrite <- Hperm in Hkr.
    rewrite <- (take_drop cap l) in Hkr, Hsort.
    apply elem_of_app in Hkr as [Hkr | Hkr].
    + exfalso. apply Hout. apply list_elem_of_fmap. by exists (k, r).
    + pose proof (StronglySorted_app_1_elem_of _ _ _ _ _ Hsort Hin Hkr) as H.
      unfold desc in H. destruct o; exact H.
  - intros ->. subst l. by rewrite map_to_list_empty.
Qed.

(** C7 (amended): in every state of the store, with the two caps
    configured to a positive number, [findLatestWishes] returns at most
    [WishesLimits.latest] wishes, newest first, and [findTopWishes] at most
    [WishesLimits.mostCopied], most copied first; each is a list, empty
    when the table is empty. *)
Theorem latest_and_top_listings (w : World) :
  schedule w = [] →
  (0 < latest WishesLimits)%nat →
  (0 < mostCopied WishesLimits)%nat →
  listing toJSON createdAt_DESC (latest WishesLimits) w
          (findLatestWishes toJSON WishesLimits w)
  ∧ listing toJSON copied_DESC (mostCopied WishesLimits) w
            (findTopWishes toJSON WishesLimits w).
Proof. intros Hq H1 H2. split; by apply find_ordered. Qed.

(** C8: [getManyByIds] of the empty list returns the empty list and leaves
    the world as it is, schedule and clock included: the store is not
    accessed.  Of a non-empty list it returns the projections, loaded
    without relations, of exactly the stored wishes whose id is in the list,
    each once, and ids that are not stored are passed over. *)
Theorem getManyByIds_exact :
  (∀ w, getManyByIds toJSON [] w = (Resolved [], w))
  ∧ (∀ w wishIds,
      wishIds ≠ [] → schedule w = [] →
      ∃ ws w',
        getManyByIds toJSON wishIds w = (Resolved (toJSON <$> ws), w')
        ∧ table w' = table w
        ∧ NoDup (Wish.id <$> ws)
        ∧ (∀ x, x ∈ ws ↔
             ∃ r, Wish.id x ∈ wishIds
                ∧ table w !! Wish.id x = Some r
                ∧ x = load rel_none (Wish.id x) r)).
Proof.
  split; [done|].
  intros w wishIds Hne Hq. enter w.
  destruct wishIds as [|i ids]; [done|]. exec. unfold select. simpl.
  set (ld := λ kr : Z * Row, load rel_none kr.1 kr.2).
  set (P := λ kr : Z * Row, kr.1 ∈ i :: ids).
  exists (ld <$> filter P (map_to_list t)). eexists. split; [done|]. simpl.
  repeat split.
  - rewrite <- list_fmap_compose.
    eapply sublist_NoDup; [apply (NoDup_fst_map_to_list t)|].
    apply fmap_sublist, sublist_filter.
  - intros Hx. apply list_elem_of_fmap in Hx as ([k r] & -> & Hin).
    apply list_elem_of_filter in Hin as [HP Hin].
    apply elem_of_map_to_list in Hin. exists r. by simpl.
  - intros (r & Hid & Hr & ->).
    apply list_elem_of_fmap. exists (Wish.id x, r). split; [done|].
    apply list_elem_of_filter. split; [done|].
    by apply elem_of_map_to_list.
Qed.

End Listing.

(** ** The properties at the concrete store

    The projection is taken to be the identity here: the loaded wish itself
    stands for its JSON form. *)

Section Examples.
Import Fixtures.

(** The two failures of C1 at the store: bob copies wish 1 and the insert
    is rejected, or the new record 3 is deleted before its re-read. *)
Lemma copy_failure_keeps_increment_at_store :
  store !! 1 = Some row1
  ∧ store !! 3 = None
  ∧ (∃ w',
       copy id messages 1 bob (world [Quiet; Quiet; Quiet; Broken])
       = (Rejected QueryFailedError, w')
       ∧ (∃ W', table w' !! 1 = Some W' ∧ copied W' = copied row1 + 1)
       ∧ (∀ k, k ≠ 1 → table w' !! k = store !! k)
       ∧ table w' ≠ store
       ∧ queryRunner w' = closed)
  ∧ (∃ w',
       copy id messages 1 bob
            (world [Quiet; Quiet; Quiet; Quiet; Interleaved (delete 3)])
       = (Rejected (NotFoundException (NotFound messages)), w')
       ∧ (∃ W', table w' !! 1 = Some W' ∧ copied W' = copied row1 + 1)
       ∧ (∀ k, k ≠ 1 → table w' !! k = store !! k)
       ∧ table w' ≠ store
       ∧ queryRunner w' = closed).
Proof.
  split; [reflexivity|]. split; [reflexivity|]. split.
  - apply (proj1 (copy_failure_keeps_increment id messages store 3 10
                    (mkRunner false false []) 1 row1 bob eq_refl) []).
  - apply (proj2 (copy_failure_keeps_increment id messages store 3 10
                    (mkRunner false false []) 1 row1 bob eq_refl)
                 eq_refl []).
Defined.

Lemma copy_duplicates_and_counts_at_store :
  schedule (world []) = []
  ∧ table (world []) !! 2 = Some row2
  ∧ table (world []) !! sequence (world []) = None
  ∧ ∃ new W' w',
      copy id messages 2 bob (world []) = (Resolved new, w')
      ∧ table (world []) !! Wish.id new = None
      ∧ Wish.owner new = Some bob
      ∧ Wish.data new = data row2
      ∧ Wish.raised new = 0 ∧ Wish.copied new = 0
      ∧ load rel_owner_offers (Wish.id new) <$> table w' !! Wish.id new
        = Some new
      ∧ table w' !! 2 = Some W'
      ∧ copied W' = copied row2 + 1
      ∧ updatedAt W' = clock (world []) + 3
      ∧ createdAt W' = createdAt row2 ∧ data W' = data row2
      ∧ raised W' = raised row2 ∧ owner W' = owner row2
      ∧ offers W' = offers row2
      ∧ (∀ k, k ≠ 2 → k ≠ Wish.id new →
           table w' !! k = table (world []) !! k).
Proof.
  split; [reflexivity|]. split; [reflexivity|]. split; [reflexivity|].
  apply (copy_duplicates_and_counts id messages (world []) 2 row2 bob);
    reflexivity.
Defined.

(** C2 as stated fails: after bob's copy of wish 1 the stored wish is not
    the old one with only the counter incremented; its update timestamp
    moved from 5 to 13. *)
Lemma copy_moves_update_timestamp :
  schedule (world []) = []
  ∧ table (world []) !! 1 = Some row1
  ∧ table (world []) !! sequence (world []) = None
  ∧ (copy id messages 1 bob (world [])).1
    = Resolved (Wish.mk 3 14 14 bike 0 0 (Some bob) (Some []))
  ∧ table (copy id messages 1 bob (world [])).2 !! 1
    = Some (mkRow 5 13 bike 0 1 alice [])
  ∧ table (copy id messages 1 bob (world [])).2 !! 1
    ≠ Some (mkRow (createdAt row1) (updatedAt row1) (data row1)
                  (raised row1) (copied row1 + 1) (owner row1)
                  (offers row1)).
Proof.
  split; [reflexivity|]. split; [reflexivity|]. split; [reflexivity|].
  split; [reflexivity|]. split; [reflexivity|].
  vm_compute. discriminate.
Qed.

Lemma update_price_rule_at_store :
  schedule (world []) = []
  ∧ table (world []) !! 1 = Some row1
  ∧ table (world []) !! 2 = Some row2
  ∧ User.id (owner row1) = 1 ∧ User.id (owner row2) = 1
  ∧ price' (reprice "bike" 150) = Some 150
  ∧ raised row1 = 0 ∧ 0 < raised row2 ∧ 150 ≠ price (data row2)
  ∧ (∃ w', update id messages 1 (reprice "bike" 150) 1 (world [])
           = (Resolved (load rel_none 1
                          (patched 10 (reprice "bike" 150) row1)), w')
         ∧ table w'
           = <[1 := patched 10 (reprice "bike" 150) row1]>
               (table (world []))
         ∧ price (data (patched 10 (reprice "bike" 150) row1)) = 150)
  ∧ (∃ w', update id messages 2 (reprice "bike" 150) 1 (world [])
           = (Rejected (priceLocked messages), w')
         ∧ table w' = table (world []) ∧ table w' !! 2 = Some row2).
Proof.
  split; [reflexivity|]. split; [reflexivity|]. split; [reflexivity|].
  split; [reflexivity|]. split; [reflexivity|]. split; [reflexivity|].
  split; [reflexivity|]. split; [simpl; lia|]. split; [simpl; lia|].
  split.
  - apply (update_price_rule id messages (world []) 1 row1
             (reprice "bike" 150) 150 1); reflexivity.
  - apply (update_price_rule id messages (world []) 2 row2
             (reprice "bike" 150) 150 1);
      first [reflexivity | simpl; lia].
Defined.

(** C3 as stated fails: wish 2 has contributions and the patch carries a
    price, yet the update is not rejected, because the price it carries is
    the stored one. *)
Lemma update_with_stored_price_not_locked :
  schedule (world []) = []
  ∧ table (world []) !! 2 = Some row2
  ∧ User.id (owner row2) = 1
  ∧ price' (reprice "city bike" 100) = Some 100
  ∧ 0 < raised row2
  ∧ (∀ w', update id messages 2 (reprice "city bike" 100) 1 (world [])
           ≠ (Rejected (priceLocked messages), w'))
  ∧ (update id messages 2 (reprice "city bike" 100) 1 (world [])).1
    = Resolved (Wish.mk 2 7 12
                  (mkData "city bike" "a red bike" "https://shop/bike"
                          "https://img/bike" 100)
                  20 3 None None).
Proof.
  split; [reflexivity|]. split; [reflexivity|]. split; [reflexivity|].
  split; [reflexivity|]. split; [simpl; lia|].
  split; [|reflexivity].
  intros w' H. apply (f_equal fst) in H. vm_compute in H. discriminate.
Qed.

Lemma non_owner_rejected_at_store :
  schedule (world []) = []
  ∧ table (world []) !! 1 = Some row1
  ∧ User.id bob ≠ User.id (owner row1)
  ∧ (∃ w', update id messages 1 (rename "car") (User.id bob) (world [])
           = (Rejected (notOwner messages), w')
         ∧ table w' = table (world []) ∧ table w' !! 1 = Some row1)
  ∧ (∃ w', remove id messages 1 (User.id bob) (world [])
           = (Rejected (notOwner messages), w')
         ∧ table w' = table (world []) ∧ table w' !! 1 = Some row1).
Proof.
  split; [reflexivity|]. split; [reflexivity|]. split; [simpl; lia|].
  apply (non_owner_rejected id messages (world []) 1 row1 (rename "car")
           (User.id bob)); first [reflexivity | simpl; lia].
Defined.



Lemma create_returns_saved_object_at_store :
  schedule (world []) = []
  ∧ table (world []) !! sequence (world []) = None
  ∧ ∃ w',
      create bike bob (world [])
      = (Resolved (Wish.mk 3 (10 + 1) (10 + 1) bike 0 0 (Some bob) None), w')
      ∧ table w' = <[3 := mkRow (10 + 1) (10 + 1) bike 0 0 bob []]> store
      ∧ schedule w' = []
      ∧ (findById id messages 3 w').1
        = Resolved (Wish.mk 3 (10 + 1) (10 + 1) bike 0 0 (Some bob)
                            (Some [])).
Proof.
  split; [reflexivity|]. split; [reflexivity|].
  apply (create_returns_saved_object id messages (world []) bike bob);
    reflexivity.
Defined.

Lemma latest_and_top_listings_at_store :
  schedule (world []) = []
  ∧ (0 < latest tight)%nat
  ∧ (0 < mostCopied tight)%nat
  ∧ (size (table (world [])) = 2)%nat
  ∧ listing id createdAt_DESC (latest tight) (world [])
            (findLatestWishes id tight (world []))
  ∧ listing id copied_DESC (mostCopied tight) (world [])
            (findTopWishes id tight (world [])).
Proof.
  split; [reflexivity|]. split; [simpl; lia|]. split; [simpl; lia|].
  split; [reflexivity|].
  apply (latest_and_top_listings id tight (world []));
    first [reflexivity | simpl; lia].
Defined.

(** C7 as stated fails for a cap of zero, which sets no limit: both listings
    of the store of two wishes then hold two wishes, more than the cap. *)
Lemma zero_cap_is_no_limit :
  schedule (world []) = []
  ∧ latest unlimited = 0%nat ∧ mostCopied unlimited = 0%nat
  ∧ (∃ js, (findLatestWishes id unlimited (world [])).1 = Resolved js
         ∧ length js = 2%nat
         ∧ ¬ (length js ≤ latest unlimited)%nat)
  ∧ (∃ js, (findTopWishes id unlimited (world [])).1 = Resolved js
         ∧ length js = 2%nat
         ∧ ¬ (length js ≤ mostCopied unlimited)%nat).
Proof.
  split; [reflexivity|]. split; [reflexivity|]. split; [reflexivity|].
  split; eexists; (split; [reflexivity|]);
    (split; [reflexivity|]); vm_compute; lia.
Qed.

Lemma getManyByIds_exact_at_store :
  [2; 9] ≠ [] ∧ schedule (world []) = []
  ∧ ∃ ws w',
      getManyByIds id [2; 9] (world []) = (Resolved (id <$> ws), w')
      ∧ table w' = table (world [])
      ∧ NoDup (Wish.id <$> ws)
      ∧ (∀ x, x ∈ ws ↔
           ∃ r, Wish.id x ∈ [2; 9]
              ∧ table (world []) !! Wish.id x = Some r
              ∧ x = load rel_none (Wish.id x) r).
Proof.
  split; [discriminate|]. split; [reflexivity|].
  apply (proj2 (getManyByIds_exact id) (world []) [2; 9]);
    [discriminate | reflexivity].
Defined.

Lemma update_same_price_allowed_at_store :
  schedule (world []) = []
  ∧ table (world []) !! 2 = Some row2
  ∧ User.id (owner row2) = 1
  ∧ 0 < raised row2
  ∧ price' (reprice "city bike" 100) = Some (price (data row2))
  ∧ ∃ w', update id messages 2 (reprice "city bike" 100) 1 (world [])
          = (Resolved (load rel_none 2
               (patched 10 (reprice "city bike" 100) row2)), w')
        ∧ table w'
          = <[2 := patched 10 (reprice "city bike" 100) row2]>
              (table (world []))
        ∧ touched_by (reprice "city bike" 100) row2
                     (patched 10 (reprice "city bike" 100) row2)
        ∧ price (data (patched 10 (reprice "city bike" 100) row2))
          = price (data row2)
        ∧ raised (patched 10 (reprice "city bike" 100) row2)
          = raised row2
        ∧ copied (patched 10 (reprice "city bike" 100) row2)
          = copied row2.
Proof.
  split; [reflexivity|]. split; [reflexivity|]. split; [reflexivity|].
  split; [simpl; lia|]. split; [reflexivity|].
  apply (update_same_price_allowed id messages (world []) 2 row2
           (reprice "city bike" 100) 1);
    first [reflexivity | simpl; lia].
Defined.

Lemma copy_unguarded_reread_at_store :
  store !! 1 = Some row1
  ∧ delete 1 store !! 1 = None
  ∧ store !! 3 = None
  ∧ (∃ w', copy id messages 1 bob (world [Quiet; Interleaved (delete 1)])
           = (Rejected TypeError, w')
         ∧ (∀ m, TypeError ≠ NotFoundException m)
         ∧ table w' = delete 1 store
         ∧ queryRunner w' = closed)
  ∧ (∃ w', copy id messages 1 bob
             (world [Quiet; Quiet; Quiet; Quiet; Interleaved (delete 3)])
           = (Rejected (NotFoundException (NotFound messages)), w')
         ∧ queryRunner w' = closed).
Proof.
  split; [reflexivity|]. split; [reflexivity|]. split; [reflexivity|]. split.
  - apply (proj1 (copy_unguarded_reread id messages store 3 10
                    (mkRunner false false []) 1 row1 bob eq_refl)
                 (delete 1) []); reflexivity.
  - apply (proj2 (copy_unguarded_reread id messages store 3 10
                    (mkRunner false false []) 1 row1 bob eq_refl)
                 (delete 3) []); reflexivity.
Defined.

(** The walk-through of the specification: alice creates a wish at 100,
    raises its price to 150 while nothing is raised, 20 is raised, a further
    price change is refused, and bob's copy is a new wish at 150 with nothing
    raised and no copies, the original counting one copy. *)
Example walk_through :
  let w1 := after (create bike alice) empty in
  let w2 := after (update id messages 1 (reprice "bike" 150) 1) w1 in
  let w3 := after (updateRaised id messages 1 20) w2 in
  let w4 := after (update id messages 1 (reprice "bike" 200) 1) w3 in
  let w5 := after (copy id messages 1 bob) w4 in
  price ∘ data <$> table w2 !! 1 = Some 150
  ∧ raised <$> table w3 !! 1 = Some 20
  ∧ (update id messages 1 (reprice "bike" 200) 1 w3).1
    = Rejected (priceLocked messages)
  ∧ price ∘ data <$> table w4 !! 1 = Some 150
  ∧ (∃ B, (copy id messages 1 bob w4).1 = Resolved B
        ∧ Wish.id B = 2 ∧ Wish.owner B = Some bob
        ∧ price (Wish.data B) = 150
        ∧ Wish.raised B = 0 ∧ Wish.copied B = 0)
  ∧ copied <$> table w5 !! 1 = Some 1.
Proof.
  repeat split; try by vm_compute.
  eexists. split; [by vm_compute|]. by vm_compute.
Qed.

End Examples.

(** ** Further properties of the service *)

Section Lifecycle.
Context {J : Type}.
Variable toJSON : Wish.t → J.
Variable WishErrors : WishErrorsT.

(** What each method does in a world without scheduled events, with the
    world it leaves. *)

Lemma create_step (t : Table) s c q (dto : CreateWishDto) user :
  t !! s = None →
  create dto user (mkWorld t s c q [])
  = (Resolved (Wish.mk s (c + 1) (c + 1) dto 0 0 (Some user) None),
     mkWorld (<[s := mkRow (c + 1) (c + 1) dto 0 0 user []]> t)
             (s + 1) (c + 1) q []).
Proof. intros Hs. exec. by rewrite Hs. Qed.

Lemma findById_step (t : Table) s c q id (W : Row) :
  t !! id = Some W →
  findById toJSON WishErrors id (mkWorld t s c q [])
  = (Resolved (toJSON (load rel_owner_offers id W)), mkWorld t s (c + 1) q []).
Proof. intros HW. exec. by rewrite HW. Qed.

Lemma updateRaised_step (t : Table) s c q id (W : Row) n :
  t !! id = Some W →
  updateRaised toJSON WishErrors id n (mkWorld t s c q [])
  = (Resolved (toJSON (load rel_none id
                 (mkRow (createdAt W) (c + 1) (data W) n (copied W)
                        (owner W) (offers W)))),
     mkWorld (<[id := mkRow (createdAt W) (c + 1) (data W) n (copied W)
                            (owner W) (offers W)]> t)
             s (c + 1 + 1) q []).
Proof.
  intros HW. exec. rewrite HW. simpl. rewrite lookup_insert_eq. simpl.
  by rewrite applyPartial_raised.
Qed.

Lemma update_step (t : Table) s c q wishId (W : Row) patch :
  t !! wishId = Some W →
  isPriceChanged patch (load rel_owner wishId W)
    && hasContributions (load rel_owner wishId W) = false →
  update toJSON WishErrors wishId patch (User.id (owner W)) (mkWorld t s c q [])
  = (Resolved (toJSON (load rel_none wishId (patched c patch W))),
     mkWorld (<[wishId := patched c patch W]> t) s (c + 1 + 1 + 1) q []).
Proof.
  intros HW Hg. exec. rewrite HW. simpl.
  rewrite bool_decide_eq_false_2 by (intros H; by apply H). simpl.
  rewrite Hg. simpl. rewrite HW. simpl. rewrite lookup_insert_eq. simpl.
  unfold patched. by replace (c + 1 + 1) with (c + 2) by lia.
Qed.

Lemma update_locked_step (t : Table) s c q wishId (W : Row) patch :
  t !! wishId = Some W →
  isPriceChanged patch (load rel_owner wishId W)
    && hasContributions (load rel_owner wishId W) = true →
  update toJSON WishErrors wishId patch (User.id (owner W)) (mkWorld t s c q [])
  = (Rejected (priceLocked WishErrors), mkWorld t s (c + 1) q []).
Proof.
  intros HW Hg. exec. rewrite HW. simpl.
  rewrite bool_decide_eq_false_2 by (intros H; by apply H). simpl.
  by rewrite Hg.
Qed.

Lemma copy_step (t : Table) s c q wishId (W : Row) user :
  t !! wishId = Some W →
  t !! s = None →
  copy toJSON WishErrors wishId user (mkWorld t s c q [])
  = (Resolved (toJSON (load rel_owner_offers s (duplicate c W user))),
     mkWorld (<[s := duplicate c W user]> (<[wishId := counted c W]> t))
             (s + 1) (c + 1 + 1 + 1 + 1 + 1) closed []).
Proof.
  intros HW Hs. assert (wishId ≠ s) as Hne by congruence.
  exec. rewrite HW. simpl. rewrite HW. simpl. rewrite HW. simpl.
  rewrite applyPartial_copied.
  rewrite lookup_insert_ne by done. rewrite Hs. simpl.
  rewrite lookup_insert_eq. simpl.
  unfold duplicate, counted, closed.
  replace (c + 1 + 1 + 1 + 1) with (c + 4) by lia.
  by replace (c + 1 + 1 + 1) with (c + 3) by lia.
Qed.

(** X1: on an id that is not stored, [findById], [update], [remove], [copy]
    and [updateRaised] all fail with NotFound and leave the table as it is;
    [copy] then has not made a query runner. *)
Theorem missing_wish_not_found (w : World) id patch userId user raisedAmount :
  schedule w = [] →
  table w !! id = None →
  (∃ w', findById toJSON WishErrors id w
         = (Rejected (notFound WishErrors), w') ∧ table w' = table w)
  ∧ (∃ w', update toJSON WishErrors id patch userId w
           = (Rejected (notFound WishErrors), w') ∧ table w' = table w)
  ∧ (∃ w', remove toJSON WishErrors id userId w
           = (Rejected (notFound WishErrors), w') ∧ table w' = table w)
  ∧ (∃ w', copy toJSON WishErrors id user w
           = (Rejected (notFound WishErrors), w') ∧ table w' = table w
         ∧ queryRunner w' = queryRunner w)
  ∧ (∃ w', updateRaised toJSON WishErrors id raisedAmount w
           = (Rejected (notFound WishErrors), w') ∧ table w' = table w).
Proof.
  intros Hq Hid. enter w.
  repeat split; exec; rewrite ?Hid; simpl; rewrite ?Hid; simpl; eauto.
Qed.

(** X2: [remove] by the owner deletes that record and no other, and returns
    the wish as it was loaded, with its owner; afterwards the id is gone:
    [findById] and a second [remove], by anyone, fail with NotFound. *)
Theorem remove_then_gone (w : World) wishId (W : Row) :
  schedule w = [] →
  table w !! wishId = Some W →
  ∃ w', remove toJSON WishErrors wishId (User.id (owner W)) w
        = (Resolved (toJSON (load rel_owner wishId W)), w')
      ∧ table w' = delete wishId (table w)
      ∧ (∀ k, k ≠ wishId → table w' !! k = table w !! k)
      ∧ (findById toJSON WishErrors wishId w').1
        = Rejected (notFound WishErrors)
      ∧ (∀ userId, (remove toJSON WishErrors wishId userId w').1
                   = Rejected (notFound WishErrors)).
Proof.
  intros Hq HW. enter w. exec. rewrite HW. simpl.
  rewrite bool_decide_eq_false_2 by (intros H; by apply H). simpl.
  rewrite HW. simpl. eexists. split; [done|]. simpl. repeat split.
  - intros k Hk. by rewrite lookup_delete_ne.
  - by rewrite lookup_delete_eq.
  - intros userId. by rewrite lookup_delete_eq.
Qed.

(** X3: [updateRaised] sets the amount, it does not add to it: after two
    calls the stored [raised] is the second amount whatever the first was,
    the second call returns the wish re-read without relations, and nothing
    but [raised] and the update timestamp of that wish has changed. *)
Theorem updateRaised_absolute (w : World) id (W : Row) a b :
  schedule w = [] →
  table w !! id = Some W →
  ∃ j w1 W2 w2,
    updateRaised toJSON WishErrors id a w = (Resolved j, w1)
    ∧ updateRaised toJSON WishErrors id b w1
      = (Resolved (toJSON (load rel_none id W2)), w2)
    ∧ table w2 !! id = Some W2
    ∧ raised W2 = b
    ∧ data W2 = data W ∧ copied W2 = copied W ∧ owner W2 = owner W
    ∧ createdAt W2 = createdAt W ∧ offers W2 = offers W
    ∧ (∀ k, k ≠ id → table w2 !! k = table w !! k).
Proof.
  intros Hq HW. enter w.
  do 4 eexists. split; [by apply updateRaised_step|].
  split; [apply updateRaised_step, lookup_insert_eq|]. simpl.
  rewrite lookup_insert_eq. repeat split.
  intros k Hk. by rewrite !lookup_insert_ne.
Qed.

(** X4: the price lock follows the amount that is stored now.  After
    [updateRaised] to [n], an update by the owner that changes the price is
    rejected as price-locked exactly when [0 < n], and leaves the table as
    it is; with [n ≤ 0] (so also after a reset to zero) it goes through and
    the new price is stored. *)
Theorem price_lock_follows_raised (w : World) id (W : Row) n patch p :
  schedule w = [] →
  table w !! id = Some W →
  price' patch = Some p →
  p ≠ price (data W) →
  ∃ j w1,
    updateRaised toJSON WishErrors id n w = (Resolved j, w1)
    ∧ (0 < n →
       ∃ w2, update toJSON WishErrors id patch (User.id (owner W)) w1
             = (Rejected (priceLocked WishErrors), w2)
           ∧ table w2 = table w1)
    ∧ (n ≤ 0 →
       ∃ j2 w2 W2, update toJSON WishErrors id patch (User.id (owner W)) w1
                   = (Resolved j2, w2)
                 ∧ table w2 !! id = Some W2
                 ∧ price (data W2) = p ∧ raised W2 = n).
Proof.
  intros Hq HW Hp Hne. enter w.
  do 2 eexists. split; [by apply updateRaised_step|].
  set (W1 := mkRow (createdAt W) (c + 1) (data W) n (copied W) (owner W)
                   (offers W)).
  change (owner W) with (owner W1). split.
  - intros Hn. eexists. split.
    + apply update_locked_step; [apply lookup_insert_eq|].
      unfold isPriceChanged, hasContributions. simpl. rewrite Hp.
      by rewrite !bool_decide_eq_true_2.
    + done.
  - intros Hn. do 3 eexists. split.
    + apply update_step; [apply lookup_insert_eq|].
      unfold hasContributions. simpl.
      rewrite (bool_decide_eq_false_2 (0 < n)) by lia. apply andb_false_r.
    + simpl. rewrite lookup_insert_eq. split; [done|].
      unfold patched. simpl. by rewrite Hp.
Qed.

End Lifecycle.

Section Failures.
Context {J : Type}.
Variable toJSON : Wish.t → J.
Variable WishErrors : WishErrorsT.
Variable WishesLimits : WishesLimitsT.

(** In a calm world a store access goes through or fails, and the table is
    the same either way. *)
Lemma access_calm (t : Table) s c q sch :
  calm (mkWorld t s c q sch) →
  calm (mkWorld t s (c + 1) q (tail sch))
  ∧ (access (mkWorld t s c q sch)
       = (Resolved tt, mkWorld t s (c + 1) q (tail sch))
     ∨ access (mkWorld t s c q sch)
       = (Rejected QueryFailedError, mkWorld t s (c + 1) q (tail sch))).
Proof.
  unfold calm, access, tick. simpl.
  destruct sch as [|[|f| |ok] rest]; simpl; intros H; auto. discriminate.
Qed.

Lemma touched_by_applyPartial (patch : UpdateWishDto) now (W : Row) :
  touched_by patch W (applyPartial (mkPartial patch None None) now W).
Proof. by repeat split. Qed.

Lemma guard_keeps_price (patch : UpdateWishDto) k rel now (W : Row) :
  isPriceChanged patch (load rel k W) && hasContributions (load rel k W)
    = false →
  0 < raised W →
  price (data (applyPartial (mkPartial patch None None) now W))
  = price (data W).
Proof.
  unfold isPriceChanged, hasContributions. simpl. intros Hg Hr.
  rewrite (bool_decide_eq_true_2 (0 < raised W)) in Hg by done.
  rewrite andb_true_r in Hg.
  destruct (price' patch) as [p|]; simpl; [|done].
  apply bool_decide_eq_false in Hg. by destruct (decide (p = price (data W))).
Qed.

Ltac calm_access H :=
  match goal with
  | |- context [access (mkWorld ?t ?s ?c ?q ?sch)] =>
      let H' := fresh "Hc" in
      destruct (access_calm t s c q sch H) as [H' [-> | ->]];
      clear H; rename H' into H; simpl
  end.

(** X5: whatever store accesses fail, as long as no other request
    interferes, [update] either leaves the table as it is, or the requesting
    user owns the wish and exactly that wish was rewritten: with the fields
    of the patch, every other field but the update timestamp as before, and
    the price as before when something was raised.  Its errors are NotFound,
    NotOwner, the price lock, or the store's failure; only after the last
    one may the write have happened. *)
Theorem update_safe_under_failures (w : World) wishId patch userId :
  calm w →
  ∃ r w',
    update toJSON WishErrors wishId patch userId w = (r, w')
    ∧ (table w' = table w
       ∨ ∃ W W', table w !! wishId = Some W
               ∧ User.id (owner W) = userId
               ∧ (0 < raised W → price (data W') = price (data W))
               ∧ touched_by patch W W'
               ∧ table w' = <[wishId := W']> (table w))
    ∧ (∀ e, r = Rejected e →
         e = notFound WishErrors ∨ e = notOwner WishErrors
         ∨ e = priceLocked WishErrors ∨ e = QueryFailedError)
    ∧ (∀ e, r = Rejected e → e ≠ QueryFailedError → table w' = table w).
Proof.
  intros Hc. destruct w as [t s c q sch].
  unfold update, check_owner, Repository.findOneBy, Repository.findOne,
    Repository.update, wishRepository, bind, resolve, throw, write, with_table.
  calm_access Hc; [|by settle].
  destruct (t !! wishId) as [W|] eqn:HW; simpl; [|by settle].
  destruct (decide (User.id (owner W) = userId)) as [Ho|Ho].
  2: { rewrite bool_decide_eq_true_2 by done. simpl. by settle. }
  rewrite bool_decide_eq_false_2 by (intros H; by apply H). simpl.
  destruct (isPriceChanged patch (load rel_owner wishId W)
            && hasContributions (load rel_owner wishId W)) eqn:Hg; simpl;
    [by settle|].
  calm_access Hc; [|by settle].
  rewrite HW. simpl.
  assert (∀ w' : World,
            table w' = <[wishId := applyPartial (mkPartial patch None None)
                                     (c + 1 + 1) W]> t →
            table w' = t
            ∨ ∃ W0 W', Some W = Some W0
                     ∧ User.id (owner W0) = userId
                     ∧ (0 < raised W0 → price (data W') = price (data W0))
                     ∧ touched_by patch W0 W'
                     ∧ table w' = <[wishId := W']> t) as Hwritten.
  { intros w' ->. right. do 2 eexists. split; [done|]. split; [done|].
    split; [by apply (guard_keeps_price patch wishId rel_owner)|].
    split; [apply touched_by_applyPartial|done]. }
  calm_access Hc.
  - rewrite lookup_insert_eq. simpl. do 2 eexists. split; [done|].
    split; [by apply Hwritten|]. by split.
  - do 2 eexists. split; [done|].
    split; [by apply Hwritten|]. split; [intros; simplify_eq; auto|].
    by intros e [= <-].
Qed.

(** X6: whatever store accesses fail, as long as no other request
    interferes, [remove] is all or nothing: when it returns a wish, the
    requesting user owned it, the result is the wish as loaded with its
    owner, and exactly that record is deleted; when it fails (NotFound,
    NotOwner, or the store's failure) the table is as before. *)
Theorem remove_safe_under_failures (w : World) wishId userId :
  calm w →
  ∃ r w',
    remove toJSON WishErrors wishId userId w = (r, w')
    ∧ (∀ j, r = Resolved j →
         ∃ W, table w !! wishId = Some W
            ∧ User.id (owner W) = userId
            ∧ j = toJSON (load rel_owner wishId W)
            ∧ table w' = delete wishId (table w))
    ∧ (∀ e, r = Rejected e →
         table w' = table w
         ∧ (e = notFound WishErrors ∨ e = notOwner WishErrors
            ∨ e = QueryFailedError)).
Proof.
  intros Hc. destruct w as [t s c q sch].
  unfold remove, check_owner, Repository.findOne, Repository.delete,
    wishRepository, bind, resolve, throw, write, with_table.
  calm_access Hc.
  2: { do 2 eexists. split; [done|]. split; [done|]. intros e [= <-]. auto. }
  destruct (t !! wishId) as [W|] eqn:HW; simpl.
  2: { do 2 eexists. split; [done|]. split; [done|]. intros e [= <-]. auto. }
  destruct (decide (User.id (owner W) = userId)) as [Ho|Ho].
  2: { rewrite bool_decide_eq_true_2 by done. simpl.
       do 2 eexists. split; [done|]. split; [done|]. intros e [= <-]. auto. }
  rewrite bool_decide_eq_false_2 by (intros H; by apply H). simpl.
  calm_access Hc.
  2: { do 2 eexists. split; [done|]. split; [done|]. intros e [= <-]. auto. }
  rewrite HW. simpl. do 2 eexists. split; [done|]. split; [|done].
  intros j [= <-]. exists W. done.
Qed.

End Failures.

Section Transaction.
Context {J : Type}.
Variable toJSON : Wish.t → J.
Variable WishErrors : WishErrorsT.

(** Whatever is scheduled, a store access changes neither the id sequence
    nor the query runner, and takes one event and one unit of time. *)
Lemma access_any (t : Table) s c q sch :
  ∃ r t', access (mkWorld t s c q sch)
          = (r, mkWorld t' s (c + 1) q (tail sch)).
Proof.
  unfold access, tick, with_table. simpl.
  destruct sch as [|[|f| |ok] rest]; simpl; eauto.
Qed.

Lemma session_any (t : Table) s c q sch :
  ∃ r sch', session (mkWorld t s c q sch) = (r, mkWorld t s c q sch').
Proof.
  unfold session. simpl. destruct sch as [|[|f| |[]] rest]; simpl; eauto.
Qed.

Ltac any_session :=
  match goal with
  | |- context [session (mkWorld ?t ?s ?c ?q ?sch)] =>
      let r := fresh "r" in
      let sch' := fresh "sch" in
      let E := fresh "E" in
      destruct (session_any t s c q sch) as (r & sch' & E);
      rewrite E; clear E; destruct r as [[]|?]; simpl
  end.

Ltac any_access :=
  match goal with
  | |- context [access (mkWorld ?t ?s ?c ?q ?sch)] =>
      let r := fresh "r" in
      let t' := fresh "t" in
      let E := fresh "E" in
      destruct (access_any t s c q sch) as (r & t' & E);
      rewrite E; clear E; destruct r as [[]|?]; simpl
  end.

(** X7: whatever happens at the store (failures, statements of other
    requests), once the query runner of [copy] is connected and its
    transaction started, [copy] ends with the runner released, on every
    path out of its block.  The connecting and the start of the transaction
    come before the block: when one of them fails, [copy] fails with that
    error, nothing is written, and the runner is left not released.  When
    the first load fails or finds nothing, no query runner was made. *)
Theorem copy_releases_after_begin (w : World) wishId user :
  ∃ r w',
    copy toJSON WishErrors wishId user w = (r, w')
    ∧ match Repository.findOne wishRepository wishId rel_owner w with
      | (Resolved (Some _), w1) =>
          match (openTransaction w1).1 with
          | Resolved _ => isReleased (queryRunner w') = true
          | Rejected e =>
              r = Rejected e
              ∧ table w' = table w1
              ∧ isReleased (queryRunner w') = false
          end
      | _ => queryRunner w' = queryRunner w
      end.
Proof.
  destruct w as [t s c q sch].
  unfold copy, openTransaction, create, Repository.findOneBy,
    Repository.findOne, Repository.update, Repository.save,
    QueryRunner.create, QueryRunner.connect, QueryRunner.startTransaction,
    QueryRunner.commitTransaction, QueryRunner.rollbackTransaction,
    QueryRunner.release, try_catch_finally, wishRepository, bind,
    resolve, throw, write, with_table, with_runner.
  any_access; [|by eauto].
  destruct (t0 !! wishId) as [W|]; simpl; [|by eauto].
  any_session; [|by eauto 10].
  any_session; [|by eauto 10].
  repeat first
    [ any_access
    | match goal with
      | |- context [@lookup _ _ (gmap _ _) _ ?k ?m] =>
          destruct (m !! k); simpl
      end ];
    by eauto.
Qed.

End Transaction.

Section StoreFailures.
Context {J : Type}.
Variable toJSON : Wish.t → J.
Variable WishErrors : WishErrorsT.
Variable WishesLimits : WishesLimitsT.

(** X8: a failure of the store at the first access of a method is handed to
    the caller as it is, by every method: the result is the store's error,
    not one of the service's, nothing was written and no query runner was
    made.  ([getManyByIds] of the empty list has no access to fail.) *)
Theorem store_failure_propagates
    (w : World) rest (dto : CreateWishDto) user id patch userId i ids amount :
  schedule w = Broken :: rest →
  refused w (create dto user w)
  ∧ refused w (findById toJSON WishErrors id w)
  ∧ refused w (findLatestWishes toJSON WishesLimits w)
  ∧ refused w (findTopWishes toJSON WishesLimits w)
  ∧ refused w (update toJSON WishErrors id patch userId w)
  ∧ refused w (remove toJSON WishErrors id userId w)
  ∧ refused w (copy toJSON WishErrors id user w)
  ∧ refused w (getManyByIds toJSON (i :: ids) w)
  ∧ refused w (updateRaised toJSON WishErrors id amount w).
Proof.
  intros Hq. enter w. unfold refused. by repeat split.
Qed.

(** X9: whatever store accesses fail, as long as no other request
    interferes, [updateRaised] writes at most the [raised] amount and the
    update timestamp of the wish with the given id.  It returns a wish only
    after that write; NotFound means that nothing was written; the store's
    failure can come before the write or after it. *)
Theorem updateRaised_under_failures (w : World) id amount :
  calm w →
  ∃ r w',
    updateRaised toJSON WishErrors id amount w = (r, w')
    ∧ (table w' = table w
       ∨ ∃ W now, table w !! id = Some W
                ∧ table w' = <[id := mkRow (createdAt W) now (data W) amount
                                          (copied W) (owner W) (offers W)]>
                               (table w))
    ∧ (∀ j, r = Resolved j →
         ∃ W', table w' !! id = Some W' ∧ raised W' = amount
             ∧ j = toJSON (load rel_none id W'))
    ∧ (∀ e, r = Rejected e →
         e = QueryFailedError
         ∨ (e = notFound WishErrors ∧ table w !! id = None
            ∧ table w' = table w)).
Proof.
  intros Hc. destruct w as [t s c q sch].
  unfold updateRaised, Repository.findOneBy, Repository.findOne,
    Repository.update, wishRepository, bind, resolve, throw, write, with_table.
  destruct (access_calm t s c q sch Hc) as [Hc1 [-> | ->]]; simpl;
    [|by settle].
  destruct (t !! id) as [W|] eqn:HW; simpl.
  - rewrite applyPartial_raised.
    match goal with
    | |- context [access (mkWorld ?t' _ _ _ _)] =>
        destruct (access_calm t' s (c + 1) q (tail sch) Hc1)
          as [Hc2 [-> | ->]]
    end; simpl.
    + rewrite lookup_insert_eq. simpl. do 2 eexists. split; [done|].
      split; [right; by eauto|]. split; [|done].
      intros j [= <-]. eexists. simpl. by rewrite lookup_insert_eq.
    + do 2 eexists. split; [done|]. split; [right; by eauto|].
      split; [done|]. intros e [= <-]. by left.
  - destruct (access_calm t s (c + 1) q (tail sch) Hc1) as [Hc2 [-> | ->]];
      simpl.
    + rewrite HW. simpl. do 2 eexists. split; [done|]. split; [by left|].
      split; [done|]. intros e [= <-]. by right.
    + do 2 eexists. split; [done|]. split; [by left|].
      split; [done|]. intros e [= <-]. by left.
Qed.

End StoreFailures.

Section Composition.
Context {J : Type}.
Variable toJSON : Wish.t → J.
Variable WishErrors : WishErrorsT.

(** X10: copies count on their direct source only.  When [B] copies a wish
    and [C] then copies [B]'s copy, the original counts one copy, [B]'s wish
    counts one, [C]'s none, and all three carry the same descriptive fields;
    when [C] copies the original instead, the original counts two. *)
Theorem copy_counts_direct_source
    (w : World) wishId (W : Row) (B C : User.t) :
  schedule w = [] →
  table w !! wishId = Some W →
  table w !! sequence w = None →
  table w !! (sequence w + 1) = None →
  ∃ j1 w1,
    copy toJSON WishErrors wishId B w = (Resolved j1, w1)
    ∧ (∃ j2 w2 W0 W1 W2,
         copy toJSON WishErrors (sequence w) C w1 = (Resolved j2, w2)
         ∧ table w2 !! wishId = Some W0
         ∧ table w2 !! sequence w = Some W1
         ∧ table w2 !! (sequence w + 1) = Some W2
         ∧ copied W0 = copied W + 1 ∧ copied W1 = 1 ∧ copied W2 = 0
         ∧ owner W0 = owner W ∧ owner W1 = B ∧ owner W2 = C
         ∧ data W0 = data W ∧ data W1 = data W ∧ data W2 = data W)
    ∧ (∃ j2 w2 W0 W1 W2,
         copy toJSON WishErrors wishId C w1 = (Resolved j2, w2)
         ∧ table w2 !! wishId = Some W0
         ∧ table w2 !! sequence w = Some W1
         ∧ table w2 !! (sequence w + 1) = Some W2
         ∧ copied W0 = copied W + 2 ∧ copied W1 = 0 ∧ copied W2 = 0
         ∧ owner W0 = owner W ∧ owner W1 = B ∧ owner W2 = C
         ∧ data W0 = data W ∧ data W1 = data W ∧ data W2 = data W).
Proof.
  intros Hq HW Hs Hs'. enter w.
  assert (wishId ≠ s) by congruence.
  assert (wishId ≠ s + 1) by congruence.
  assert (s ≠ s + 1) by lia.
  do 2 eexists. split; [by apply copy_step|]. split.
  - do 5 eexists. split.
    + apply copy_step; [apply lookup_insert_eq|].
      by rewrite !lookup_insert_ne.
    + simpl. do 3 (split; [by simplify_map_eq|]). by repeat split.
  - do 5 eexists. split.
    + apply copy_step;
        [by rewrite lookup_insert_ne, lookup_insert_eq
        |by rewrite !lookup_insert_ne].
    + simpl. do 3 (split; [by simplify_map_eq|]).
      repeat split; simpl; lia.
Qed.

(** X11: the counter update of [copy] writes the value it read plus one.
    When another request changes the source between the re-read and that
    update, the stored counter is the one [copy] had read plus one, whatever
    the other request had stored: its increments are lost, while its other
    fields stay; the new wish carries the descriptive fields as re-read. *)
Theorem copy_overwrites_concurrent_count
    (t : Table) s c q wishId (W W2 : Row) user (f : Table → Table) :
  t !! wishId = Some W →
  f t !! wishId = Some W2 →
  f t !! s = None →
  ∃ new W' w',
    copy toJSON WishErrors wishId user
         (mkWorld t s c q [Quiet; Quiet; Interleaved f])
    = (Resolved (toJSON new), w')
    ∧ Wish.data new = data W
    ∧ table w' !! wishId = Some W'
    ∧ copied W' = copied W + 1
    ∧ data W' = data W2 ∧ raised W' = raised W2 ∧ owner W' = owner W2.
Proof.
  intros HW HW2 Hs. assert (wishId ≠ s) as Hne by congruence.
  exec. rewrite HW. simpl. rewrite HW. simpl. rewrite HW2. simpl.
  rewrite applyPartial_copied.
  rewrite lookup_insert_ne by done. rewrite Hs. simpl.
  rewrite lookup_insert_eq. simpl.
  do 3 eexists. split; [done|]. simpl.
  rewrite lookup_insert_ne, lookup_insert_eq by done. by repeat split.
Qed.

(** X12: [update] checks the owner and the price lock on the wish as first
    loaded and writes afterwards.  When another request changes the wish in
    between, the patch is applied to the changed wish without a new check:
    the price of the patch is stored even if by then something was raised. *)
Theorem update_checks_before_write
    (t : Table) s c q wishId (W W2 : Row) patch (f : Table → Table) :
  t !! wishId = Some W →
  isPriceChanged patch (load rel_owner wishId W)
    && hasContributions (load rel_owner wishId W) = false →
  f t !! wishId = Some W2 →
  ∃ W' w',
    update toJSON WishErrors wishId patch (User.id (owner W))
           (mkWorld t s c q [Quiet; Interleaved f])
    = (Resolved (toJSON (load rel_none wishId W')), w')
    ∧ table w' !! wishId = Some W'
    ∧ touched_by patch W2 W'
    ∧ (∀ p, price' patch = Some p → price (data W') = p).
Proof.
  intros HW Hg HW2.
  exec. rewrite HW. simpl.
  rewrite bool_decide_eq_false_2 by (intros H; by apply H). simpl.
  rewrite Hg. simpl. rewrite HW2. simpl. rewrite lookup_insert_eq. simpl.
  do 2 eexists. split; [done|]. simpl. rewrite lookup_insert_eq.
  split; [done|]. split; [by repeat split|].
  intros p Hp. simpl. by rewrite Hp.
Qed.

(** X13: a wish that another request deletes in the middle of a call.
    [update] and [updateRaised] find it gone at their re-read and fail with
    NotFound; [remove], which does not read again, returns the wish as it
    had loaded it, without an error. *)
Theorem wish_deleted_meanwhile
    (t : Table) s c q wishId (W : Row) patch amount :
  t !! wishId = Some W →
  isPriceChanged patch (load rel_owner wishId W)
    && hasContributions (load rel_owner wishId W) = false →
  (∃ w', update toJSON WishErrors wishId patch (User.id (owner W))
                (mkWorld t s c q [Quiet; Quiet; Interleaved (delete wishId)])
         = (Rejected (notFound WishErrors), w')
       ∧ table w' = delete wishId t)
  ∧ (∃ w', updateRaised toJSON WishErrors wishId amount
                (mkWorld t s c q [Quiet; Interleaved (delete wishId)])
           = (Rejected (notFound WishErrors), w')
         ∧ table w' = delete wishId t)
  ∧ (∃ w', remove toJSON WishErrors wishId (User.id (owner W))
                (mkWorld t s c q [Quiet; Interleaved (delete wishId)])
           = (Resolved (toJSON (load rel_owner wishId W)), w')
         ∧ table w' = delete wishId t).
Proof.
  intros HW Hg. repeat split.
  - exec. rewrite HW. simpl.
    rewrite bool_decide_eq_false_2 by (intros H; by apply H). simpl.
    rewrite Hg. simpl. rewrite HW. simpl. rewrite lookup_delete_eq. simpl.
    eexists. split; [done|]. simpl. by rewrite delete_insert_eq.
  - exec. rewrite HW. simpl. rewrite lookup_delete_eq. simpl.
    eexists. split; [done|]. simpl. by rewrite delete_insert_eq.
  - exec. rewrite HW. simpl.
    rewrite bool_decide_eq_false_2 by (intros H; by apply H). simpl.
    rewrite lookup_delete_eq. simpl. eauto.
Qed.

End Composition.

Section Listings.
Context {J : Type}.
Variable toJSON : Wish.t → J.
Variable WishesLimits : WishesLimitsT.

#[local] Existing Instance desc_total.
#[local] Existing Instance desc_trans.

(** The ordered selection lists every row at most once, all rows when the
    cap allows, and starts with a row that no other row precedes. *)
Lemma select_ordered (t : Table) (o : Order) (cap : nat) rel :
  let rows := select (mkFind None (Some o) (Some cap) rel) t in
  NoDup (rows.*1)
  ∧ ((size t ≤ cap)%nat → rows ≡ₚ map_to_list t)
  ∧ (∀ kr, kr ∈ map_to_list t → (0 < cap)%nat →
       (∀ kr', kr' ∈ map_to_list t → kr' ≠ kr → sortKey o kr' < sortKey o kr) →
       ∃ rest, rows = kr :: rest).
Proof.
  unfold select. simpl.
  set (l := merge_sort (desc o) (map_to_list t)).
  assert (l ≡ₚ map_to_list t) as Hperm by apply merge_sort_Permutation.
  assert (StronglySorted (desc o) l) as Hsort
    by apply (StronglySorted_merge_sort _).
  assert (match cap with O => l | S n => firstn (S n) l end
          `sublist_of` l) as Hsub
    by (destruct cap; [done|apply sublist_take]).
  repeat split.
  - eapply sublist_NoDup; [|apply fmap_sublist, Hsub].
    rewrite Hperm. apply NoDup_fst_map_to_list.
  - intros Hsize. destruct cap as [|n]; [done|]. rewrite take_ge; [done|].
    by rewrite Hperm, length_map_to_list.
  - intros kr Hin Hcap Hmax. rewrite <- Hperm in Hin.
    destruct l as [|h l'] eqn:Hl; [by apply elem_of_nil in Hin|].
    destruct cap as [|cap]; [lia|]. simpl.
    apply elem_of_cons in Hin as [->|Hin]; [by eauto|]. exfalso.
    assert (NoDup (h :: l')) as Hnd
      by (rewrite Hperm; apply NoDup_map_to_list).
    apply NoDup_cons in Hnd as [Hnotin _].
    assert (h ≠ kr) as Hne by (intros ->; done).
    apply StronglySorted_inv in Hsort as [_ Hall].
    rewrite Forall_forall in Hall. specialize (Hall kr Hin).
    unfold desc in Hall.
    assert (h ∈ map_to_list t) as Hh by (rewrite <- Hperm; by left).
    specialize (Hmax h Hh Hne). lia.
Qed.

(** X14: [findLatestWishes] and [findTopWishes] list no wish twice, and
    when the table holds no more wishes than the cap they list every stored
    wish: the two results are then the same wishes in two orders. *)
Theorem listings_are_complete (w : World) :
  schedule w = [] →
  ∃ newest top w1 w2,
    findLatestWishes toJSON WishesLimits w
    = (Resolved (toJSON <$> newest), w1)
    ∧ findTopWishes toJSON WishesLimits w = (Resolved (toJSON <$> top), w2)
    ∧ NoDup (Wish.id <$> newest) ∧ NoDup (Wish.id <$> top)
    ∧ ((size (table w) ≤ latest WishesLimits)%nat →
       newest ≡ₚ allWishes (table w))
    ∧ ((size (table w) ≤ mostCopied WishesLimits)%nat →
       top ≡ₚ allWishes (table w)).
Proof.
  intros Hq. enter w. exec.
  destruct (select_ordered t createdAt_DESC (latest WishesLimits)
              rel_owner_offers) as (Hn1 & Hp1 & _).
  destruct (select_ordered t copied_DESC (mostCopied WishesLimits)
              rel_owner_offers) as (Hn2 & Hp2 & _).
  do 4 eexists. split; [done|]. split; [done|].
  rewrite <- !list_fmap_compose. repeat split; try done.
  - intros Hs. unfold allWishes. by rewrite (Hp1 Hs).
  - intros Hs. unfold allWishes. by rewrite (Hp2 Hs).
Qed.

(** X15: a wish that was just created heads [findLatestWishes]: when no
    stored wish has a creation time after the store's clock and the cap is
    not zero, the first wish listed after [create] is the new one, loaded
    with its owner and with no offers. *)
Theorem created_wish_is_latest (w : World) (dto : CreateWishDto) user :
  schedule w = [] →
  table w !! sequence w = None →
  map_Forall (λ _ r, createdAt r ≤ clock w) (table w) →
  (0 < latest WishesLimits)%nat →
  ∃ new w1 rest w2,
    create dto user w = (Resolved new, w1)
    ∧ findLatestWishes toJSON WishesLimits w1
      = (Resolved (toJSON (Wish.mk (Wish.id new) (Wish.createdAt new)
                             (Wish.updatedAt new) dto 0 0 (Some user)
                             (Some []))
                   :: rest), w2).
Proof.
  intros Hq Hs Hpast Hcap. enter w.
  set (r := mkRow (c + 1) (c + 1) dto 0 0 user []).
  destruct (select_ordered (<[s := r]> t) createdAt_DESC
              (latest WishesLimits) rel_owner_offers) as (_ & _ & Hhead).
  destruct (Hhead (s, r)) as [rest' Hrows]; [|done| |].
  - apply elem_of_map_to_list, lookup_insert_eq.
  - intros [k r'] Hin Hne. apply elem_of_map_to_list in Hin. simpl.
    destruct (decide (k = s)) as [->|Hk].
    + rewrite lookup_insert_eq in Hin. congruence.
    + rewrite lookup_insert_ne in Hin by done.
      specialize (Hpast k r' Hin). simpl in Hpast. lia.
  - do 4 eexists. split; [by apply create_step|]. exec.
    fold r. rewrite Hrows. simpl. reflexivity.
Qed.

(** X16: which wishes [getManyByIds] returns depends on which ids are asked
    for, not on their order or on repetitions: in every world, two non-empty
    lists with the same members lead to the same world and either to the
    same failure or to the same projections up to their order (the query
    sets no order). *)
Theorem getManyByIds_by_members (w : World) (ids ids' : list Z) :
  ids ≠ [] → ids' ≠ [] →
  list_to_set ids =@{gset Z} list_to_set ids' →
  ∃ r r' w',
    getManyByIds toJSON ids w = (r, w')
    ∧ getManyByIds toJSON ids' w = (r', w')
    ∧ match r, r' with
      | Resolved js, Resolved js' => js ≡ₚ js'
      | Rejected e, Rejected e' => e = e'
      | _, _ => False
      end.
Proof.
  intros Hne Hne' Hset.
  assert (∀ k, k ∈ ids ↔ k ∈ ids') as Hsame.
  { intros k. by rewrite <- !(elem_of_list_to_set (C := gset Z)), Hset. }
  destruct ids as [|i ids]; [done|]. destruct ids' as [|i' ids']; [done|].
  unfold getManyByIds, Repository.find, bind, resolve, select. simpl.
  destruct (access w) as [[[]|e] w1].
  - do 3 eexists. split; [done|]. split; [done|]. simpl.
    rewrite (list_filter_iff (λ kr : Z * Row, kr.1 ∈ i :: ids)
               (λ kr : Z * Row, kr.1 ∈ i' :: ids')); [done|].
    intros [k r]. apply Hsame.
  - do 3 eexists. split; [done|]. split; [done|]. done.
Qed.

End Listings.

Section Creation.

(** X17: two creations in a row get two different ids, both wishes are
    stored with their own owner and data and with nothing raised and no
    copies, and the wishes stored before are as they were. *)
Theorem create_twice (w : World) (d1 d2 : CreateWishDto) (u1 u2 : User.t) :
  schedule w = [] →
  table w !! sequence w = None →
  table w !! (sequence w + 1) = None →
  ∃ a w1 b w2 r1 r2,
    create d1 u1 w = (Resolved a, w1)
    ∧ create d2 u2 w1 = (Resolved b, w2)
    ∧ Wish.id a ≠ Wish.id b
    ∧ table w2 !! Wish.id a = Some r1 ∧ table w2 !! Wish.id b = Some r2
    ∧ data r1 = d1 ∧ owner r1 = u1 ∧ raised r1 = 0 ∧ copied r1 = 0
    ∧ data r2 = d2 ∧ owner r2 = u2 ∧ raised r2 = 0 ∧ copied r2 = 0
    ∧ (∀ k r, table w !! k = Some r → table w2 !! k = Some r).
Proof.
  intros Hq Hs Hs'. enter w.
  do 6 eexists. split; [by apply create_step|].
  split; [apply create_step; by rewrite lookup_insert_ne by lia|]. simpl.
  split; [lia|].
  split; [by rewrite lookup_insert_ne, lookup_insert_eq by lia|].
  split; [by rewrite lookup_insert_eq|].
  repeat split.
  intros k r Hk.
  rewrite !lookup_insert_ne; [done| |]; intros <-; congruence.
Qed.

End Creation.

Section Calm.
Context {J : Type}.
Variable toJSON : Wish.t → J.
Variable WishErrors : WishErrorsT.
Variable WishesLimits : WishesLimitsT.

Lemma session_calm (t : Table) s c q sch :
  calm (mkWorld t s c q sch) →
  ∃ sch', calm (mkWorld t s c q sch')
        ∧ (session (mkWorld t s c q sch)
             = (Resolved tt, mkWorld t s c q sch')
           ∨ session (mkWorld t s c q sch)
             = (Rejected QueryFailedError, mkWorld t s c q sch')).
Proof.
  unfold calm, session. simpl.
  destruct sch as [|[|f| |[]] rest]; simpl; intros H; try discriminate;
    (eexists; split; [|first [by left | by right]]); done.
Qed.

Ltac next_session H :=
  match goal with
  | |- context [session (mkWorld ?t ?s ?c ?q ?sch)] =>
      let H' := fresh "Hc" in
      let sch' := fresh "sch" in
      destruct (session_calm t s c q sch H) as (sch' & H' & [-> | ->]);
      clear H; rename H' into H; simpl
  end.

Ltac next_access H :=
  match goal with
  | |- context [access (mkWorld ?t ?s ?c ?q ?sch)] =>
      let H' := fresh "Hc" in
      destruct (access_calm t s c q sch H) as [H' [-> | ->]];
      clear H; rename H' into H; simpl
  end.

(** X18: whatever store accesses fail, as long as no other request
    interferes, [copy] fails only with NotFound, when the wish is not stored
    and then nothing is written, or with the store's failure; never with a
    [TypeError].  The table is as before, or the source has its counter
    incremented, or in addition the new wish is stored under the next id;
    [copy] returns a wish only in the last case, and then it is the new wish
    loaded with its owner and no offers.  (The last case does not always
    return a wish: the store can still fail at the final re-read.) *)
Theorem copy_under_failures (w : World) wishId user :
  calm w →
  ∃ r w',
    copy toJSON WishErrors wishId user w = (r, w')
    ∧ (table w' = table w
       ∨ ∃ W, table w !! wishId = Some W
            ∧ (table w' = <[wishId := counted (clock w) W]> (table w)
               ∨ table w' = <[sequence w := duplicate (clock w) W user]>
                              (<[wishId := counted (clock w) W]> (table w))))
    ∧ (∀ j, r = Resolved j →
         ∃ W, table w !! wishId = Some W
            ∧ table w !! sequence w = None
            ∧ j = toJSON (load rel_owner_offers (sequence w)
                               (duplicate (clock w) W user))
            ∧ table w' = <[sequence w := duplicate (clock w) W user]>
                           (<[wishId := counted (clock w) W]> (table w)))
    ∧ (∀ e, r = Rejected e →
         e = QueryFailedError
         ∨ (e = notFound WishErrors ∧ table w !! wishId = None
            ∧ table w' = table w)).
Proof.
  intros Hc. destruct w as [t s c q sch].
  unfold copy, create, Repository.findOneBy, Repository.findOne,
    Repository.update, Repository.save, QueryRunner.create,
    QueryRunner.connect, QueryRunner.startTransaction,
    QueryRunner.commitTransaction, QueryRunner.rollbackTransaction,
    QueryRunner.release, try_catch_finally, wishRepository, bind, resolve,
    throw, write, with_table, with_runner.
  next_access Hc; [|by settle].
  destruct (t !! wishId) as [W|] eqn:HW; simpl; [|by settle].
  next_session Hc; [|by settle].
  next_session Hc; [|by settle].
  next_access Hc; [|by settle].
  rewrite HW. simpl.
  next_access Hc; [|by settle].
  rewrite HW. simpl. rewrite applyPartial_copied.
  assert (mkRow (createdAt W) (c + 1 + 1 + 1) (data W) (raised W)
                (copied W + 1) (owner W) (offers W) = counted c W) as ->.
  { unfold counted. by replace (c + 1 + 1 + 1) with (c + 3) by lia. }
  next_access Hc.
  2: { do 2 eexists. split; [done|]. split; [by eauto|].
       split; [done|]. intros e [= <-]. by left. }
  destruct (<[wishId := counted c W]> t !! s) as [?|] eqn:Hs; simpl.
  { do 2 eexists. split; [done|]. split; [by eauto|].
    split; [done|]. intros e [= <-]. by left. }
  assert (t !! s = None) as Hs'.
  { destruct (decide (wishId = s)) as [->|Hne].
    - by rewrite lookup_insert_eq in Hs.
    - by rewrite lookup_insert_ne in Hs. }
  assert (mkRow (c + 1 + 1 + 1 + 1) (c + 1 + 1 + 1 + 1) (data W) 0 0 user []
          = duplicate c W user) as ->.
  { unfold duplicate. by replace (c + 1 + 1 + 1 + 1) with (c + 4) by lia. }
  next_access Hc.
  2: { do 2 eexists. split; [done|]. split; [by eauto 10|].
       split; [done|]. intros e [= <-]. by left. }
  rewrite lookup_insert_eq. simpl.
  do 2 eexists. split; [done|]. split; [by eauto 10|].
  split; [|done]. intros j [= <-]. by eauto 10.
Qed.

(** X19: the reading methods do not write.  Whatever store accesses fail,
    as long as no other request interferes, [findById], [findLatestWishes],
    [findTopWishes] and [getManyByIds] leave the table, the id sequence and
    the query runner as they were; and [findById] returns a wish only when
    it is stored, loaded with owner and offers, and fails with NotFound only
    when it is not. *)
Theorem reads_do_not_write (w : World) id wishIds :
  calm w →
  (∃ r w', findById toJSON WishErrors id w = (r, w')
         ∧ table w' = table w ∧ sequence w' = sequence w
         ∧ queryRunner w' = queryRunner w
         ∧ (∀ j, r = Resolved j →
              ∃ W, table w !! id = Some W
                 ∧ j = toJSON (load rel_owner_offers id W))
         ∧ (∀ e, r = Rejected e →
              e = QueryFailedError
              ∨ (e = notFound WishErrors ∧ table w !! id = None)))
  ∧ (∃ r w', findLatestWishes toJSON WishesLimits w = (r, w')
           ∧ table w' = table w ∧ sequence w' = sequence w
           ∧ queryRunner w' = queryRunner w)
  ∧ (∃ r w', findTopWishes toJSON WishesLimits w = (r, w')
           ∧ table w' = table w ∧ sequence w' = sequence w
           ∧ queryRunner w' = queryRunner w)
  ∧ (∃ r w', getManyByIds toJSON wishIds w = (r, w')
           ∧ table w' = table w ∧ sequence w' = sequence w
           ∧ queryRunner w' = queryRunner w).
Proof.
  intros Hc. destruct w as [t s c q sch].
  unfold findById, findLatestWishes, findTopWishes, getManyByIds,
    Repository.findOne, Repository.find, wishRepository, bind, resolve, throw.
  destruct (access_calm t s c q sch Hc) as [_ [Ha | Ha]].
  - repeat split; rewrite ?Ha; simpl.
    + destruct (t !! id) as [W|] eqn:HW; simpl.
      * do 2 eexists. split; [done|]. repeat split; try done.
        intros j [= <-]. by eauto.
      * do 2 eexists. split; [done|]. repeat split; try done.
        intros e [= <-]. by right.
    + by eauto 10.
    + by eauto 10.
    + destruct wishIds; [by eauto 10|]. rewrite Ha. simpl. by eauto 10.
  - repeat split; rewrite ?Ha; simpl.
    + do 2 eexists. split; [done|]. repeat split; try done.
      intros e [= <-]. by left.
    + by eauto 10.
    + by eauto 10.
    + destruct wishIds; [by eauto 10|]. rewrite Ha. simpl. by eauto 10.
Qed.

End Calm.

(** ** The further properties at the concrete store *)

Section FurtherExamples.
Import Fixtures.

Lemma missing_wish_not_found_at_store :
  schedule (world []) = []
  ∧ table (world []) !! 9 = None
  ∧ ((∃ w' : World, findById id messages 9 (world []) = (Rejected (notFound
      messages), w') ∧ table w' = table (world [])) ∧ (∃ w' : World, update id
      messages 9 (rename "car") 1 (world []) = (Rejected (notFound messages),
      w') ∧ table w' = table (world [])) ∧ (∃ w' : World, remove id messages 9
      1 (world []) = (Rejected (notFound messages), w') ∧ table w' = table
      (world [])) ∧ (∃ w' : World, copy id messages 9 bob (world []) =
      (Rejected (notFound messages), w') ∧ table w' = table (world []) ∧
      queryRunner w' = queryRunner (world [])) ∧ ∃ w' : World, updateRaised id
      messages 9 50 (world []) = (Rejected (notFound messages), w') ∧ table w'
      = table (world [])).
Proof.
  split; [holds|].
  split; [holds|].
  apply (missing_wish_not_found id messages (world []) 9 (rename "car") 1 bob
      50); holds.
Defined.

Lemma remove_then_gone_at_store :
  schedule (world []) = []
  ∧ table (world []) !! 1 = Some row1
  ∧ (∃ w' : World, remove id messages 1 (User.id (owner row1)) (world []) =
      (Resolved (id (load rel_owner 1 row1)), w') ∧ table w' = delete 1 (table
      (world [])) ∧ (∀ k : Z, k ≠ 1 → table w' !! k = table (world []) !! k) ∧
      (findById id messages 1 w').1 = Rejected (notFound messages) ∧ ∀ userId
      : Z, (remove id messages 1 userId w').1 = Rejected (notFound messages)).
Proof.
  split; [holds|].
  split; [holds|].
  apply (remove_then_gone id messages (world []) 1 row1); holds.
Defined.

Lemma updateRaised_absolute_at_store :
  schedule (world []) = []
  ∧ table (world []) !! 1 = Some row1
  ∧ (∃ (j : Wish.t) (w1 : World) (W2 : Row) (w2 : World), updateRaised id
      messages 1 30 (world []) = (Resolved j, w1) ∧ updateRaised id messages 1
      10 w1 = (Resolved (id (load rel_none 1 W2)), w2) ∧ table w2 !! 1 = Some
      W2 ∧ raised W2 = 10 ∧ data W2 = data row1 ∧ copied W2 = copied row1 ∧
      owner W2 = owner row1 ∧ createdAt W2 = createdAt row1 ∧ offers W2 =
      offers row1 ∧ ∀ k : Z, k ≠ 1 → table w2 !! k = table (world []) !! k).
Proof.
  split; [holds|].
  split; [holds|].
  apply (updateRaised_absolute id messages (world []) 1 row1 30 10); holds.
Defined.

Lemma price_lock_follows_raised_at_store :
  schedule (world []) = []
  ∧ table (world []) !! 1 = Some row1
  ∧ price' (reprice "bike" 150) = Some 150
  ∧ 150 ≠ price (data row1)
  ∧ (∃ (j : Wish.t) (w1 : World), updateRaised id messages 1 20 (world []) =
      (Resolved j, w1) ∧ (0 < 20 → ∃ w2 : World, update id messages 1 (reprice
      "bike" 150) (User.id (owner row1)) w1 = (Rejected (priceLocked
      messages), w2) ∧ table w2 = table w1) ∧ (20 <= 0 → ∃ (j2 : Wish.t) (w2 :
      World) (W2 : Row), update id messages 1 (reprice "bike" 150) (User.id
      (owner row1)) w1 = (Resolved j2, w2) ∧ table w2 !! 1 = Some W2 ∧ price
      (data W2) = 150 ∧ raised W2 = 20)).
Proof.
  split; [holds|].
  split; [holds|].
  split; [holds|].
  split; [holds|].
  apply (price_lock_follows_raised id messages (world []) 1 row1 20 (reprice
      "bike" 150) 150); holds.
Defined.

Lemma update_safe_under_failures_at_store :
  calm (world [Quiet; Quiet; Broken])
  ∧ (∃ (r : Outcome Wish.t) (w' : World), update id messages 1 (reprice "bike"
      150) 1 (world [Quiet; Quiet; Broken]) = (r, w') ∧ (table w' = table
      (world [Quiet; Quiet; Broken]) ∨ ∃ W W' : Row, table (world [Quiet;
      Quiet; Broken]) !! 1 = Some W ∧ User.id (owner W) = 1 ∧ (0 < raised W →
      price (data W') = price (data W)) ∧ touched_by (reprice "bike" 150) W W'
      ∧ table w' = <[1:=W']> (table (world [Quiet; Quiet; Broken]))) ∧ (∀ e :
      Exception, r = Rejected e → e = notFound messages ∨ e = notOwner
      messages ∨ e = priceLocked messages ∨ e = QueryFailedError) ∧ ∀ e :
      Exception, r = Rejected e → e ≠ QueryFailedError → table w' = table
      (world [Quiet; Quiet; Broken])).
Proof.
  split; [holds|].
  apply (update_safe_under_failures id messages (world [Quiet; Quiet; Broken])
      1 (reprice "bike" 150) 1); holds.
Defined.

Lemma remove_safe_under_failures_at_store :
  calm (world [Quiet; Broken])
  ∧ (∃ (r : Outcome Wish.t) (w' : World), remove id messages 1 1 (world
      [Quiet; Broken]) = (r, w') ∧ (∀ j : Wish.t, r = Resolved j → ∃ W : Row,
      table (world [Quiet; Broken]) !! 1 = Some W ∧ User.id (owner W) = 1 ∧ j
      = id (load rel_owner 1 W) ∧ table w' = delete 1 (table (world [Quiet;
      Broken]))) ∧ ∀ e : Exception, r = Rejected e → table w' = table (world
      [Quiet; Broken]) ∧ (e = notFound messages ∨ e = notOwner messages ∨ e =
      QueryFailedError)).
Proof.
  split; [holds|].
  apply (remove_safe_under_failures id messages (world [Quiet; Broken]) 1 1);
      holds.
Defined.

Lemma store_failure_propagates_at_store :
  schedule (world [Broken]) = [Broken]
  ∧ (refused (world [Broken]) (create bike bob (world [Broken])) ∧ refused
      (world [Broken]) (findById id messages 1 (world [Broken])) ∧ refused
      (world [Broken]) (findLatestWishes id limits (world [Broken])) ∧ refused
      (world [Broken]) (findTopWishes id limits (world [Broken])) ∧ refused
      (world [Broken]) (update id messages 1 (rename "car") 1 (world
      [Broken])) ∧ refused (world [Broken]) (remove id messages 1 1 (world
      [Broken])) ∧ refused (world [Broken]) (copy id messages 1 bob (world
      [Broken])) ∧ refused (world [Broken]) (getManyByIds id [1; 2] (world
      [Broken])) ∧ refused (world [Broken]) (updateRaised id messages 1 50
      (world [Broken]))).
Proof.
  split; [holds|].
  apply (store_failure_propagates id messages limits (world [Broken]) [] bike
      bob 1 (rename "car") 1 1 [2] 50); holds.
Defined.

Lemma updateRaised_under_failures_at_store :
  calm (world [Quiet; Broken])
  ∧ (∃ (r : Outcome Wish.t) (w' : World), updateRaised id messages 1 50 (world
      [Quiet; Broken]) = (r, w') ∧ (table w' = table (world [Quiet; Broken]) ∨
      ∃ (W : Row) (now : Z), table (world [Quiet; Broken]) !! 1 = Some W ∧
      table w' = <[1:={| createdAt := createdAt W; updatedAt := now; data :=
      data W; raised := 50; copied := copied W; owner := owner W; offers :=
      offers W |}]> (table (world [Quiet; Broken]))) ∧ (∀ j : Wish.t, r =
      Resolved j → ∃ W' : Row, table w' !! 1 = Some W' ∧ raised W' = 50 ∧ j =
      id (load rel_none 1 W')) ∧ ∀ e : Exception, r = Rejected e → e =
      QueryFailedError ∨ e = notFound messages ∧ table (world [Quiet; Broken])
      !! 1 = None ∧ table w' = table (world [Quiet; Broken])).
Proof.
  split; [holds|].
  apply (updateRaised_under_failures id messages (world [Quiet; Broken]) 1
      50); holds.
Defined.

Lemma copy_counts_direct_source_at_store :
  schedule (world []) = []
  ∧ table (world []) !! 1 = Some row1
  ∧ table (world []) !! sequence (world []) = None
  ∧ table (world []) !! (sequence (world []) + 1) = None
  ∧ (∃ (j1 : Wish.t) (w1 : World), copy id messages 1 bob (world []) =
      (Resolved j1, w1) ∧ (∃ (j2 : Wish.t) (w2 : World) (W0 W1 W2 : Row), copy
      id messages (sequence (world [])) alice w1 = (Resolved j2, w2) ∧ table
      w2 !! 1 = Some W0 ∧ table w2 !! sequence (world []) = Some W1 ∧ table w2
      !! (sequence (world []) + 1) = Some W2 ∧ copied W0 = copied row1 + 1 ∧
      copied W1 = 1 ∧ copied W2 = 0 ∧ owner W0 = owner row1 ∧ owner W1 = bob ∧
      owner W2 = alice ∧ data W0 = data row1 ∧ data W1 = data row1 ∧ data W2 =
      data row1) ∧ ∃ (j2 : Wish.t) (w2 : World) (W0 W1 W2 : Row), copy id
      messages 1 alice w1 = (Resolved j2, w2) ∧ table w2 !! 1 = Some W0 ∧
      table w2 !! sequence (world []) = Some W1 ∧ table w2 !! (sequence (world
      []) + 1) = Some W2 ∧ copied W0 = copied row1 + 2 ∧ copied W1 = 0 ∧
      copied W2 = 0 ∧ owner W0 = owner row1 ∧ owner W1 = bob ∧ owner W2 =
      alice ∧ data W0 = data row1 ∧ data W1 = data row1 ∧ data W2 = data
      row1).
Proof.
  split; [holds|].
  split; [holds|].
  split; [holds|].
  split; [holds|].
  apply (copy_counts_direct_source id messages (world []) 1 row1 bob alice);
      holds.
Defined.

Lemma copy_overwrites_concurrent_count_at_store :
  store !! 1 = Some row1
  ∧ count_copies store !! 1 = Some row1_copied
  ∧ count_copies store !! 3 = None
  ∧ (∃ (new : Wish.t) (W' : Row) (w' : World), copy id messages 1 bob {| table
      := store; sequence := 3; clock := 10; queryRunner := idle; schedule :=
      [Quiet; Quiet; Interleaved count_copies] |} = (Resolved (id new), w') ∧
      Wish.data new = data row1 ∧ table w' !! 1 = Some W' ∧ copied W' = copied
      row1 + 1 ∧ data W' = data row1_copied ∧ raised W' = raised row1_copied ∧
      owner W' = owner row1_copied).
Proof.
  split; [holds|].
  split; [holds|].
  split; [holds|].
  apply (copy_overwrites_concurrent_count id messages store 3 10 idle 1 row1
      row1_copied bob count_copies); holds.
Defined.

Lemma update_checks_before_write_at_store :
  store !! 1 = Some row1
  ∧ isPriceChanged (reprice "bike" 150) (load rel_owner 1 row1) &&
      hasContributions (load rel_owner 1 row1) = false
  ∧ fund store !! 1 = Some row1_funded
  ∧ (∃ (W' : Row) (w' : World), update id messages 1 (reprice "bike" 150)
      (User.id (owner row1)) {| table := store; sequence := 3; clock := 10;
      queryRunner := idle; schedule := [Quiet; Interleaved fund] |} =
      (Resolved (id (load rel_none 1 W')), w') ∧ table w' !! 1 = Some W' ∧
      touched_by (reprice "bike" 150) row1_funded W' ∧ ∀ p : Z, price'
      (reprice "bike" 150) = Some p → price (data W') = p).
Proof.
  split; [holds|].
  split; [holds|].
  split; [holds|].
  apply (update_checks_before_write id messages store 3 10 idle 1 row1
      row1_funded (reprice "bike" 150) fund); holds.
Defined.

Lemma wish_deleted_meanwhile_at_store :
  store !! 1 = Some row1
  ∧ isPriceChanged (rename "car") (load rel_owner 1 row1) && hasContributions
      (load rel_owner 1 row1) = false
  ∧ ((∃ w' : World, update id messages 1 (rename "car") (User.id (owner row1))
      {| table := store; sequence := 3; clock := 10; queryRunner := idle;
      schedule := [Quiet; Quiet; Interleaved (delete 1)] |} = (Rejected
      (notFound messages), w') ∧ table w' = delete 1 store) ∧ (∃ w' : World,
      updateRaised id messages 1 50 {| table := store; sequence := 3; clock :=
      10; queryRunner := idle; schedule := [Quiet; Interleaved (delete 1)] |}
      = (Rejected (notFound messages), w') ∧ table w' = delete 1 store) ∧ ∃ w'
      : World, remove id messages 1 (User.id (owner row1)) {| table := store;
      sequence := 3; clock := 10; queryRunner := idle; schedule := [Quiet;
      Interleaved (delete 1)] |} = (Resolved (id (load rel_owner 1 row1)), w')
      ∧ table w' = delete 1 store).
Proof.
  split; [holds|].
  split; [holds|].
  apply (wish_deleted_meanwhile id messages store 3 10 idle 1 row1 (rename
      "car") 50); holds.
Defined.

Lemma listings_are_complete_at_store :
  schedule (world []) = []
  ∧ (∃ (newest top : list Wish.t) (w1 w2 : World), findLatestWishes id limits
      (world []) = (Resolved (id <$> newest), w1) ∧ findTopWishes id limits
      (world []) = (Resolved (id <$> top), w2) ∧ NoDup (Wish.id <$> newest) ∧
      NoDup (Wish.id <$> top) ∧ ((size (table (world [])) <= latest
      limits)%nat → newest ≡ₚ allWishes (table (world []))) ∧ ((size (table
      (world [])) <= mostCopied limits)%nat → top ≡ₚ allWishes (table (world
      [])))).
Proof.
  split; [holds|].
  apply (listings_are_complete id limits (world [])); holds.
Defined.

Lemma created_wish_is_latest_at_store :
  schedule (world []) = []
  ∧ table (world []) !! sequence (world []) = None
  ∧ map_Forall (λ (_ : Z) (r : Row), createdAt r <= clock (world [])) (table
      (world []))
  ∧ (0 < latest limits)%nat
  ∧ (∃ (new : Wish.t) (w1 : World) (rest : list Wish.t) (w2 : World), create
      bike bob (world []) = (Resolved new, w1) ∧ findLatestWishes id limits w1
      = (Resolved (id {| Wish.id := Wish.id new; Wish.createdAt :=
      Wish.createdAt new; Wish.updatedAt := Wish.updatedAt new; Wish.data :=
      bike; Wish.raised := 0; Wish.copied := 0; Wish.owner := Some bob;
      Wish.offers := Some [] |} :: rest), w2)).
Proof.
  split; [holds|].
  split; [holds|].
  split; [holds|].
  split; [holds|].
  apply (created_wish_is_latest id limits (world []) bike bob); holds.
Defined.

Lemma getManyByIds_by_members_at_store :
  [2; 1; 2] ≠ []
  ∧ [1; 2] ≠ []
  ∧ list_to_set [2; 1; 2] =@{gset Z} list_to_set [1; 2]
  ∧ (∃ r r' w',
       getManyByIds id [2; 1; 2] (world []) = (r, w')
       ∧ getManyByIds id [1; 2] (world []) = (r', w')
       ∧ match r, r' with
         | Resolved js, Resolved js' => js ≡ₚ js'
         | Rejected e, Rejected e' => e = e'
         | _, _ => False
         end).
Proof.
  split; [holds|].
  split; [holds|].
  split; [holds|].
  apply (getManyByIds_by_members id (world []) [2; 1; 2] [1; 2]); holds.
Defined.

Lemma create_twice_at_store :
  schedule (world []) = []
  ∧ table (world []) !! sequence (world []) = None
  ∧ table (world []) !! (sequence (world []) + 1) = None
  ∧ (∃ (a : Wish.t) (w1 : World) (b : Wish.t) (w2 : World) (r1 r2 : Row),
      create bike alice (world []) = (Resolved a, w1) ∧ create bike bob w1 =
      (Resolved b, w2) ∧ Wish.id a ≠ Wish.id b ∧ table w2 !! Wish.id a = Some
      r1 ∧ table w2 !! Wish.id b = Some r2 ∧ data r1 = bike ∧ owner r1 = alice
      ∧ raised r1 = 0 ∧ copied r1 = 0 ∧ data r2 = bike ∧ owner r2 = bob ∧
      raised r2 = 0 ∧ copied r2 = 0 ∧ ∀ (k : Z) (r : Row), table (world []) !!
      k = Some r → table w2 !! k = Some r).
Proof.
  split; [holds|].
  split; [holds|].
  split; [holds|].
  apply (create_twice (world []) bike bike alice bob); holds.
Defined.

Lemma copy_under_failures_at_store :
  calm (world [Quiet; Quiet; Quiet; Broken])
  ∧ (∃ (r : Outcome Wish.t) (w' : World), copy id messages 1 bob (world
      [Quiet; Quiet; Quiet; Broken]) = (r, w') ∧ (table w' = table (world
      [Quiet; Quiet; Quiet; Broken]) ∨ ∃ W : Row, table (world [Quiet; Quiet;
      Quiet; Broken]) !! 1 = Some W ∧ (table w' = <[1:=counted (clock (world
      [Quiet; Quiet; Quiet; Broken])) W]> (table (world [Quiet; Quiet; Quiet;
      Broken])) ∨ table w' = <[sequence (world [Quiet; Quiet; Quiet;
      Broken]):= duplicate (clock (world [Quiet; Quiet; Quiet; Broken])) W
      bob]> (<[1:=counted (clock (world [Quiet; Quiet; Quiet; Broken])) W]>
      (table (world [Quiet; Quiet; Quiet; Broken]))))) ∧ (∀ j : Wish.t, r =
      Resolved j → ∃ W : Row, table (world [Quiet; Quiet; Quiet; Broken]) !! 1
      = Some W ∧ table (world [Quiet; Quiet; Quiet; Broken]) !! sequence
      (world [Quiet; Quiet; Quiet; Broken]) = None ∧ j = id (load
      rel_owner_offers (sequence (world [Quiet; Quiet; Quiet; Broken]))
      (duplicate (clock (world [Quiet; Quiet; Quiet; Broken])) W bob)) ∧ table
      w' = <[sequence (world [Quiet; Quiet; Quiet; Broken]):= duplicate (clock
      (world [Quiet; Quiet; Quiet; Broken])) W bob]> (<[1:=counted (clock
      (world [Quiet; Quiet; Quiet; Broken])) W]> (table (world [Quiet; Quiet;
      Quiet; Broken])))) ∧ ∀ e : Exception, r = Rejected e → e =
      QueryFailedError ∨ e = notFound messages ∧ table (world [Quiet; Quiet;
      Quiet; Broken]) !! 1 = None ∧ table w' = table (world [Quiet; Quiet;
      Quiet; Broken])).
Proof.
  split; [holds|].
  apply (copy_under_failures id messages (world [Quiet; Quiet; Quiet; Broken])
      1 bob); holds.
Defined.

Lemma reads_do_not_write_at_store :
  calm (world [Broken])
  ∧ ((∃ (r : Outcome Wish.t) (w' : World), findById id messages 1 (world
      [Broken]) = (r, w') ∧ table w' = table (world [Broken]) ∧ sequence w' =
      sequence (world [Broken]) ∧ queryRunner w' = queryRunner (world
      [Broken]) ∧ (∀ j : Wish.t, r = Resolved j → ∃ W : Row, table (world
      [Broken]) !! 1 = Some W ∧ j = id (load rel_owner_offers 1 W)) ∧ ∀ e :
      Exception, r = Rejected e → e = QueryFailedError ∨ e = notFound messages
      ∧ table (world [Broken]) !! 1 = None) ∧ (∃ (r : Outcome (list Wish.t))
      (w' : World), findLatestWishes id limits (world [Broken]) = (r, w') ∧
      table w' = table (world [Broken]) ∧ sequence w' = sequence (world
      [Broken]) ∧ queryRunner w' = queryRunner (world [Broken])) ∧ (∃ (r :
      Outcome (list Wish.t)) (w' : World), findTopWishes id limits (world
      [Broken]) = (r, w') ∧ table w' = table (world [Broken]) ∧ sequence w' =
      sequence (world [Broken]) ∧ queryRunner w' = queryRunner (world
      [Broken])) ∧ ∃ (r : Outcome (list Wish.t)) (w' : World), getManyByIds id
      [1; 2] (world [Broken]) = (r, w') ∧ table w' = table (world [Broken]) ∧
      sequence w' = sequence (world [Broken]) ∧ queryRunner w' = queryRunner
      (world [Broken])).
Proof.
  split; [holds|].
  apply (reads_do_not_write id messages limits (world [Broken]) 1 [1; 2]);
      holds.
Defined.

(** The runner that is not released: bob copies wish 1 and the runner's
    connection fails, or its transaction cannot be started. *)
Example copy_leaves_runner_unreleased :
  (∃ w', copy id messages 1 bob (world [Quiet; Session false])
         = (Rejected QueryFailedError, w')
       ∧ table w' = store ∧ isReleased (queryRunner w') = false)
  ∧ (∃ w', copy id messages 1 bob (world [Quiet; Session true; Session false])
           = (Rejected QueryFailedError, w')
         ∧ table w' = store ∧ isReleased (queryRunner w') = false).
Proof. split; eexists; by repeat split. Qed.

End FurtherExamples.
